(** * BinarySection: a shallow embedding of bolt/Core/BinarySection.h

    The development follows the header top to bottom: machine integers and
    the string views the class stores, the relocation record and the ordered
    multiset that holds it, the [BinarySection] record with one field per
    data member, the three constructors, the classification predicates, the
    comparison operators, the relocation stores and the output-content
    mutators.  Statements about the code come after all definitions. *)

From Stdlib Require Import ZArith List String Bool Lia.
From stdpp Require Import base list sorting.

Local Open Scope Z_scope.
Local Open Scope list_scope.

(** ** Machine integers *)

Module Int.

(** [uint64_t] and [unsigned]/[uint32_t] values are integers reduced
    modulo the width of their type. *)
Definition modulus64 : Z := 2 ^ 64.
Definition modulus32 : Z := 2 ^ 32.

Definition wrap64 (x : Z) : Z := x mod modulus64.
Definition wrap32 (x : Z) : Z := x mod modulus32.

Definition in_u64 (x : Z) : Prop := 0 <= x < modulus64.
Definition in_u32 (x : Z) : Prop := 0 <= x < modulus32.

(** [a + b] on [uint64_t]. *)
Definition add64 (a b : Z) : Z := wrap64 (a + b).

End Int.

(** ** Outcomes and the method monad

    A member function either returns, trips an [assert] (the process
    aborts; the state is the one the object had when the assertion was
    evaluated) or calls [exit].  Computations thread the state they act on:
    [M BinarySection] for member functions that touch [*this] only, a pair
    with the process globals for those that also touch the heap or the
    static counter. *)

Inductive outcome (A : Type) : Type :=
| Done (a : A)
| AssertionFailure (msg : string)
| Exited (code : Z).

Arguments Done {A} a.
Arguments AssertionFailure {A} msg.
Arguments Exited {A} code.

Definition M (S A : Type) : Type := S -> outcome A * S.

Definition ret {S A : Type} (a : A) : M S A := fun s => (Done a, s).

Definition bind {S A B : Type} (m : M S A) (k : A -> M S B) : M S B :=
  fun s =>
    match m s with
    | (Done a, s') => k a s'
    | (AssertionFailure msg, s') => (AssertionFailure msg, s')
    | (Exited c, s') => (Exited c, s')
    end.

Definition get {S : Type} : M S S := fun s => (Done s, s).
Definition gets {S A : Type} (f : S -> A) : M S A := fun s => (Done (f s), s).
Definition modify {S : Type} (f : S -> S) : M S unit := fun s => (Done tt, f s).

(** [assert(cond && "msg")]. *)
Definition assert {S : Type} (cond : bool) (msg : string) : M S unit :=
  fun s => if cond then (Done tt, s) else (AssertionFailure msg, s).

(** [exit(code)]. *)
Definition exit {S A : Type} (code : Z) : M S A := fun s => (Exited code, s).

(** Run a computation on the second component of a pair state. *)
Definition on_this {G S A : Type} (m : M S A) : M (G * S) A :=
  fun gs => let '(r, s') := m (snd gs) in (r, (fst gs, s')).

(** Run a computation on the first component of a pair state. *)
Definition on_globals {G S A : Type} (m : M G A) : M (G * S) A :=
  fun gs => let '(r, g') := m (fst gs) in (r, (g', snd gs)).

Declare Scope method_scope.
Delimit Scope method_scope with method.
Notation "x <- m ;; k" := (bind m (fun x => k))
  (at level 100, m at next level, right associativity) : method_scope.
Notation "m ;;; k" := (bind m (fun _ => k))
  (at level 100, right associativity) : method_scope.

(** The state a computation leaves behind and what it returned. *)
Definition result_of {S A : Type} (r : outcome A * S) : outcome A := fst r.
Definition state_of {S A : Type} (r : outcome A * S) : S := snd r.

Definition returned {A : Type} (o : outcome A) : bool :=
  match o with Done _ => true | _ => false end.

(** ** Pointers, string views and memory *)

(** A pointer is an address; [nullptr] is address 0. *)
Definition ptr : Type := Z.
Definition nullptr : ptr := 0.
Definition is_null (p : ptr) : bool := p =? nullptr.

(** [llvm::StringRef]: a pointer and a length, without ownership. *)
Record StringRef : Type := mkStringRef {
  Data : ptr;
  Length : Z
}.

(** [StringRef()]: the empty view. *)
Definition StringRef_empty : StringRef := mkStringRef nullptr 0.

Definition StringRef_is_empty (r : StringRef) : bool := Length r =? 0.

(** Byte-addressed memory, and the bytes a view designates in it. *)
Definition Memory : Type := ptr -> Byte.byte.

Definition read_bytes (m : Memory) (p : ptr) (n : Z) : list Byte.byte :=
  List.map (fun i => m (p + Z.of_nat i)) (seq 0 (Z.to_nat n)).

Definition view_bytes (m : Memory) (r : StringRef) : list Byte.byte :=
  read_bytes m (Data r) (Length r).

(** ** ELF constants

    The header names ten constants of [llvm/BinaryFormat/ELF.h], which is
    not among the sources.  They are parameters of the development;
    [gABI] gives them the values the ELF specification assigns. *)
Class ELFConstants : Type := {
  SHT_NULL : Z;
  SHT_PROGBITS : Z;
  SHT_RELA : Z;
  SHT_NOTE : Z;
  SHT_NOBITS : Z;
  SHT_RELR : Z;
  SHF_WRITE : Z;
  SHF_ALLOC : Z;
  SHF_EXECINSTR : Z;
  SHF_TLS : Z
}.

Definition gABI : ELFConstants := {|
  SHT_NULL := 0;
  SHT_PROGBITS := 1;
  SHT_RELA := 4;
  SHT_NOTE := 7;
  SHT_NOBITS := 8;
  SHT_RELR := 19;
  SHF_WRITE := 1;
  SHF_ALLOC := 2;
  SHF_EXECINSTR := 4;
  SHF_TLS := 1024
|}.

(** Conversion of an integer to [bool], as in [return (Flags & Bit);]. *)
Definition to_bool (x : Z) : bool := negb (x =? 0).

(** ** Relocation records *)

(** Modelled from the spec: bolt/Core/Relocation.h is not among the sources.
    A relocation record is the tuple (offset, target, kind, addend, resolved
    value); the header builds it as [Relocation{Offset, Symbol, Type, Addend,
    Value}].  The target is a pointer to an [MCSymbol] that the record does
    not own. *)
Record Relocation : Type := mkRelocation {
  Offset : Z;
  Symbol : ptr;
  Type_ : Z;
  Addend : Z;
  Value : Z
}.

(** Modelled from the spec: ordering of relocation records keys on the
    offset only, both between two records and between a record and a bare
    offset (the heterogeneous lookups of [std::less<>]). *)
Definition Relocation_lt (a b : Relocation) : bool := Offset a <? Offset b.
Definition Relocation_lt_key (a : Relocation) (k : Z) : bool := Offset a <? k.
Definition key_lt_Relocation (k : Z) (b : Relocation) : bool := k <? Offset b.

(** ** [std::multiset<Relocation, std::less<>>]

    The container is its in-order sequence of elements; an iterator is a
    position in that sequence and [end()] is its length.  Elements that
    compare equivalent keep their insertion order: [emplace] inserts at the
    upper bound of the equivalent range.  [find] returns the first element
    of the equivalent range, as the tree lookups of libstdc++ and libc++ do.
    All three comparisons read the offset only, so a lookup key is an
    offset: the offset itself for [find(Offset)], that of the record for
    [find(Key)] and [emplace(Reloc)] (see [MultisetFacts.comparisons_agree]). *)
Module Multiset.

Abbreviation t := (list Relocation).
Abbreviation iterator := nat.

Definition empty : t := [].
Definition is_empty (s : t) : bool := match s with [] => true | _ => false end.
Definition end_ (s : t) : iterator := length s.

(** First position whose element is not less than [k]. *)
Fixpoint lower_bound (k : Z) (s : t) : iterator :=
  match s with
  | [] => 0%nat
  | r :: s' => if Relocation_lt_key r k then S (lower_bound k s') else 0%nat
  end.

(** First position whose element is greater than [k]. *)
Fixpoint upper_bound (k : Z) (s : t) : iterator :=
  match s with
  | [] => 0%nat
  | r :: s' => if key_lt_Relocation k r then 0%nat else S (upper_bound k s')
  end.

(** [find(k)]: the lower bound when its element is equivalent to [k],
    [end()] otherwise. *)
Definition find (k : Z) (s : t) : iterator :=
  let i := lower_bound k s in
  match s !! i with
  | Some r => if key_lt_Relocation k r then end_ s else i
  | None => end_ s
  end.

(** [*it]. *)
Definition deref (s : t) (it : iterator) : option Relocation := s !! it.

(** [emplace(r)]. *)
Definition emplace (r : Relocation) (s : t) : t :=
  let i := upper_bound (Offset r) s in take i s ++ r :: drop i s.

(** [erase(it)]: removes the one element at [it]. *)
Definition erase (it : iterator) (s : t) : t := delete it s.

(** [erase(first, last)]. *)
Definition erase_range (first last : iterator) (s : t) : t :=
  take first s ++ drop last s.

(** Number of elements equivalent to [k]. *)
Definition count (k : Z) (s : t) : nat :=
  length (filter (fun r => Offset r = k) s).

(** The representation invariant: elements in non-decreasing key order. *)
Definition ordered (s : t) : Prop :=
  StronglySorted (fun a b => Offset a <= Offset b) s.

(** The first element with offset [k], in store order. *)
Definition first_at (k : Z) (s : t) : option Relocation :=
  head (filter (fun r => Offset r = k) s).

(** [s] without its first element with offset [k]. *)
Fixpoint remove_first (k : Z) (s : t) : t :=
  match s with
  | [] => []
  | r :: s' => if Offset r =? k then s' else r :: remove_first k s'
  end.

End Multiset.

(** ** The collaborators a section refers to *)

(** [BinaryContext] is only declared in the header.  The section asks it
    one thing, through [isELF()] and [isMachO()] (declared in the header,
    defined with the context): the format of the binary being rewritten. *)
Record BinaryContext : Type := mkBinaryContext {
  ctx_isELF : bool;
  ctx_isMachO : bool
}.

(** [object::SectionRef] of a section of the input file, as the answers it
    gives to the queries the header makes.  [ref_Name] and [ref_Contents]
    are the [Expected<StringRef>] of [getName()] and of [getContents()]:
    [None] stands for the error.
    The default-constructed [SectionRef()] is not a value of this type: a
    section holds an [option SectionRef] and [None] is [SectionRef()]. *)
Record SectionRef : Type := mkSectionRef {
  ref_Name : option string;
  ref_Address : Z;
  ref_Size : Z;
  ref_Alignment : Z;
  ref_Contents : option StringRef;
  ref_isText : bool;
  ref_isData : bool;
  ref_objectIsELF : bool;
  ref_ELFType : Z;
  ref_ELFFlags : Z;
  ref_ELFOffset : Z;
  ref_MachOOffset : Z
}.

(** [struct BinaryPatch]. *)
Record BinaryPatch : Type := mkBinaryPatch {
  patch_Offset : Z;
  patch_Bytes : list Byte.byte
}.

(** ** The class *)

(** One field per data member, in declaration order, with the default
    member initializers noted. *)
Record BinarySection : Type := mkBinarySection {
  BC : BinaryContext;
  Name : string;
  Section : option SectionRef;
  Contents : StringRef;
  Address : Z;
  Size : Z;
  InputFileOffset : Z;                     (* {0} *)
  Alignment : Z;
  ELFType : Z;
  ELFFlags : Z;
  IsRelro : bool;                          (* {false} *)
  Relocations : Multiset.t;
  DynamicRelocations : Multiset.t;
  PendingRelocations : list Relocation;
  Patches : list BinaryPatch;
  Patcher : option ptr;
  IsFinalized : bool;                      (* {false} *)
  OutputName : string;
  OutputAddress : Z;                       (* {0} *)
  OutputSize : Z;                          (* {0} *)
  OutputFileOffset : Z;                    (* {0} *)
  OutputContents : StringRef;
  SectionNumber : Z;
  SectionID : string;
  Index : Z;                               (* {0} *)
  IsReordered : bool;                      (* {false} *)
  IsAnonymous : bool;                      (* {false} *)
  IsLinkOnly : bool                        (* {false} *)
}.

(** The process-wide state the class touches: the static creation counter
    [BinarySection::Count] and the heap, of which the model records the
    buffers handed to [delete[]]. *)
Record Globals : Type := mkGlobals {
  Count : Z;
  Deleted : list ptr
}.

(** Assignments to single data members. *)
Definition set_Contents (v : StringRef) (s : BinarySection) : BinarySection :=
  mkBinarySection (BC s) (Name s) (Section s) v (Address s) (Size s)
    (InputFileOffset s) (Alignment s) (ELFType s) (ELFFlags s) (IsRelro s)
    (Relocations s) (DynamicRelocations s) (PendingRelocations s) (Patches s)
    (Patcher s) (IsFinalized s) (OutputName s) (OutputAddress s) (OutputSize s)
    (OutputFileOffset s) (OutputContents s) (SectionNumber s) (SectionID s)
    (Index s) (IsReordered s) (IsAnonymous s) (IsLinkOnly s).

Definition set_InputFileOffset (v : Z) (s : BinarySection) : BinarySection :=
  mkBinarySection (BC s) (Name s) (Section s) (Contents s) (Address s) (Size s)
    v (Alignment s) (ELFType s) (ELFFlags s) (IsRelro s)
    (Relocations s) (DynamicRelocations s) (PendingRelocations s) (Patches s)
    (Patcher s) (IsFinalized s) (OutputName s) (OutputAddress s) (OutputSize s)
    (OutputFileOffset s) (OutputContents s) (SectionNumber s) (SectionID s)
    (Index s) (IsReordered s) (IsAnonymous s) (IsLinkOnly s).

Definition set_Alignment (v : Z) (s : BinarySection) : BinarySection :=
  mkBinarySection (BC s) (Name s) (Section s) (Contents s) (Address s) (Size s)
    (InputFileOffset s) v (ELFType s) (ELFFlags s) (IsRelro s)
    (Relocations s) (DynamicRelocations s) (PendingRelocations s) (Patches s)
    (Patcher s) (IsFinalized s) (OutputName s) (OutputAddress s) (OutputSize s)
    (OutputFileOffset s) (OutputContents s) (SectionNumber s) (SectionID s)
    (Index s) (IsReordered s) (IsAnonymous s) (IsLinkOnly s).

Definition set_ELFType (v : Z) (s : BinarySection) : BinarySection :=
  mkBinarySection (BC s) (Name s) (Section s) (Contents s) (Address s) (Size s)
    (InputFileOffset s) (Alignment s) v (ELFFlags s) (IsRelro s)
    (Relocations s) (DynamicRelocations s) (PendingRelocations s) (Patches s)
    (Patcher s) (IsFinalized s) (OutputName s) (OutputAddress s) (OutputSize s)
    (OutputFileOffset s) (OutputContents s) (SectionNumber s) (SectionID s)
    (Index s) (IsReordered s) (IsAnonymous s) (IsLinkOnly s).

Definition set_ELFFlags (v : Z) (s : BinarySection) : BinarySection :=
  mkBinarySection (BC s) (Name s) (Section s) (Contents s) (Address s) (Size s)
    (InputFileOffset s) (Alignment s) (ELFType s) v (IsRelro s)
    (Relocations s) (DynamicRelocations s) (PendingRelocations s) (Patches s)
    (Patcher s) (IsFinalized s) (OutputName s) (OutputAddress s) (OutputSize s)
    (OutputFileOffset s) (OutputContents s) (SectionNumber s) (SectionID s)
    (Index s) (IsReordered s) (IsAnonymous s) (IsLinkOnly s).

Definition set_IsRelro (v : bool) (s : BinarySection) : BinarySection :=
  mkBinarySection (BC s) (Name s) (Section s) (Contents s) (Address s) (Size s)
    (InputFileOffset s) (Alignment s) (ELFType s) (ELFFlags s) v
    (Relocations s) (DynamicRelocations s) (PendingRelocations s) (Patches s)
    (Patcher s) (IsFinalized s) (OutputName s) (OutputAddress s) (OutputSize s)
    (OutputFileOffset s) (OutputContents s) (SectionNumber s) (SectionID s)
    (Index s) (IsReordered s) (IsAnonymous s) (IsLinkOnly s).

Definition set_Relocations (v : Multiset.t) (s : BinarySection) : BinarySection :=
  mkBinarySection (BC s) (Name s) (Section s) (Contents s) (Address s) (Size s)
    (InputFileOffset s) (Alignment s) (ELFType s) (ELFFlags s) (IsRelro s)
    v (DynamicRelocations s) (PendingRelocations s) (Patches s)
    (Patcher s) (IsFinalized s) (OutputName s) (OutputAddress s) (OutputSize s)
    (OutputFileOffset s) (OutputContents s) (SectionNumber s) (SectionID s)
    (Index s) (IsReordered s) (IsAnonymous s) (IsLinkOnly s).

Definition set_DynamicRelocations (v : Multiset.t) (s : BinarySection) : BinarySection :=
  mkBinarySection (BC s) (Name s) (Section s) (Contents s) (Address s) (Size s)
    (InputFileOffset s) (Alignment s) (ELFType s) (ELFFlags s) (IsRelro s)
    (Relocations s) v (PendingRelocations s) (Patches s)
    (Patcher s) (IsFinalized s) (OutputName s) (OutputAddress s) (OutputSize s)
    (OutputFileOffset s) (OutputContents s) (SectionNumber s) (SectionID s)
    (Index s) (IsReordered s) (IsAnonymous s) (IsLinkOnly s).

Definition set_PendingRelocations (v : list Relocation) (s : BinarySection) : BinarySection :=
  mkBinarySection (BC s) (Name s) (Section s) (Contents s) (Address s) (Size s)
    (InputFileOffset s) (Alignment s) (ELFType s) (ELFFlags s) (IsRelro s)
    (Relocations s) (DynamicRelocations s) v (Patches s)
    (Patcher s) (IsFinalized s) (OutputName s) (OutputAddress s) (OutputSize s)
    (OutputFileOffset s) (OutputContents s) (SectionNumber s) (SectionID s)
    (Index s) (IsReordered s) (IsAnonymous s) (IsLinkOnly s).

Definition set_Patches (v : list BinaryPatch) (s : BinarySection) : BinarySection :=
  mkBinarySection (BC s) (Name s) (Section s) (Contents s) (Address s) (Size s)
    (InputFileOffset s) (Alignment s) (ELFType s) (ELFFlags s) (IsRelro s)
    (Relocations s) (DynamicRelocations s) (PendingRelocations s) v
    (Patcher s) (IsFinalized s) (OutputName s) (OutputAddress s) (OutputSize s)
    (OutputFileOffset s) (OutputContents s) (SectionNumber s) (SectionID s)
    (Index s) (IsReordered s) (IsAnonymous s) (IsLinkOnly s).

Definition set_Patcher (v : option ptr) (s : BinarySection) : BinarySection :=
  mkBinarySection (BC s) (Name s) (Section s) (Contents s) (Address s) (Size s)
    (InputFileOffset s) (Alignment s) (ELFType s) (ELFFlags s) (IsRelro s)
    (Relocations s) (DynamicRelocations s) (PendingRelocations s) (Patches s)
    v (IsFinalized s) (OutputName s) (OutputAddress s) (OutputSize s)
    (OutputFileOffset s) (OutputContents s) (SectionNumber s) (SectionID s)
    (Index s) (IsReordered s) (IsAnonymous s) (IsLinkOnly s).

Definition set_IsFinalized (v : bool) (s : BinarySection) : BinarySection :=
  mkBinarySection (BC s) (Name s) (Section s) (Contents s) (Address s) (Size s)
    (InputFileOffset s) (Alignment s) (ELFType s) (ELFFlags s) (IsRelro s)
    (Relocations s) (DynamicRelocations s) (PendingRelocations s) (Patches s)
    (Patcher s) v (OutputName s) (OutputAddress s) (OutputSize s)
    (OutputFileOffset s) (OutputContents s) (SectionNumber s) (SectionID s)
    (Index s) (IsReordered s) (IsAnonymous s) (IsLinkOnly s).

Definition set_OutputName (v : string) (s : BinarySection) : BinarySection :=
  mkBinarySection (BC s) (Name s) (Section s) (Contents s) (Address s) (Size s)
    (InputFileOffset s) (Alignment s) (ELFType s) (ELFFlags s) (IsRelro s)
    (Relocations s) (DynamicRelocations s) (PendingRelocations s) (Patches s)
    (Patcher s) (IsFinalized s) v (OutputAddress s) (OutputSize s)
    (OutputFileOffset s) (OutputContents s) (SectionNumber s) (SectionID s)
    (Index s) (IsReordered s) (IsAnonymous s) (IsLinkOnly s).

Definition set_OutputAddress (v : Z) (s : BinarySection) : BinarySection :=
  mkBinarySection (BC s) (Name s) (Section s) (Contents s) (Address s) (Size s)
    (InputFileOffset s) (Alignment s) (ELFType s) (ELFFlags s) (IsRelro s)
    (Relocations s) (DynamicRelocations s) (PendingRelocations s) (Patches s)
    (Patcher s) (IsFinalized s) (OutputName s) v (OutputSize s)
    (OutputFileOffset s) (OutputContents s) (SectionNumber s) (SectionID s)
    (Index s) (IsReordered s) (IsAnonymous s) (IsLinkOnly s).

Definition set_OutputSize (v : Z) (s : BinarySection) : BinarySection :=
  mkBinarySection (BC s) (Name s) (Section s) (Contents s) (Address s) (Size s)
    (InputFileOffset s) (Alignment s) (ELFType s) (ELFFlags s) (IsRelro s)
    (Relocations s) (DynamicRelocations s) (PendingRelocations s) (Patches s)
    (Patcher s) (IsFinalized s) (OutputName s) (OutputAddress s) v
    (OutputFileOffset s) (OutputContents s) (SectionNumber s) (SectionID s)
    (Index s) (IsReordered s) (IsAnonymous s) (IsLinkOnly s).

Definition set_OutputFileOffset (v : Z) (s : BinarySection) : BinarySection :=
  mkBinarySection (BC s) (Name s) (Section s) (Contents s) (Address s) (Size s)
    (InputFileOffset s) (Alignment s) (ELFType s) (ELFFlags s) (IsRelro s)
    (Relocations s) (DynamicRelocations s) (PendingRelocations s) (Patches s)
    (Patcher s) (IsFinalized s) (OutputName s) (OutputAddress s) (OutputSize s)
    v (OutputContents s) (SectionNumber s) (SectionID s)
    (Index s) (IsReordered s) (IsAnonymous s) (IsLinkOnly s).

Definition set_OutputContents (v : StringRef) (s : BinarySection) : BinarySection :=
  mkBinarySection (BC s) (Name s) (Section s) (Contents s) (Address s) (Size s)
    (InputFileOffset s) (Alignment s) (ELFType s) (ELFFlags s) (IsRelro s)
    (Relocations s) (DynamicRelocations s) (PendingRelocations s) (Patches s)
    (Patcher s) (IsFinalized s) (OutputName s) (OutputAddress s) (OutputSize s)
    (OutputFileOffset s) v (SectionNumber s) (SectionID s)
    (Index s) (IsReordered s) (IsAnonymous s) (IsLinkOnly s).

Definition set_SectionID (v : string) (s : BinarySection) : BinarySection :=
  mkBinarySection (BC s) (Name s) (Section s) (Contents s) (Address s) (Size s)
    (InputFileOffset s) (Alignment s) (ELFType s) (ELFFlags s) (IsRelro s)
    (Relocations s) (DynamicRelocations s) (PendingRelocations s) (Patches s)
    (Patcher s) (IsFinalized s) (OutputName s) (OutputAddress s) (OutputSize s)
    (OutputFileOffset s) (OutputContents s) (SectionNumber s) v
    (Index s) (IsReordered s) (IsAnonymous s) (IsLinkOnly s).

Definition set_Index (v : Z) (s : BinarySection) : BinarySection :=
  mkBinarySection (BC s) (Name s) (Section s) (Contents s) (Address s) (Size s)
    (InputFileOffset s) (Alignment s) (ELFType s) (ELFFlags s) (IsRelro s)
    (Relocations s) (DynamicRelocations s) (PendingRelocations s) (Patches s)
    (Patcher s) (IsFinalized s) (OutputName s) (OutputAddress s) (OutputSize s)
    (OutputFileOffset s) (OutputContents s) (SectionNumber s) (SectionID s)
    v (IsReordered s) (IsAnonymous s) (IsLinkOnly s).

Definition set_IsAnonymous (v : bool) (s : BinarySection) : BinarySection :=
  mkBinarySection (BC s) (Name s) (Section s) (Contents s) (Address s) (Size s)
    (InputFileOffset s) (Alignment s) (ELFType s) (ELFFlags s) (IsRelro s)
    (Relocations s) (DynamicRelocations s) (PendingRelocations s) (Patches s)
    (Patcher s) (IsFinalized s) (OutputName s) (OutputAddress s) (OutputSize s)
    (OutputFileOffset s) (OutputContents s) (SectionNumber s) (SectionID s)
    (Index s) (IsReordered s) v (IsLinkOnly s).

Definition set_IsLinkOnly (v : bool) (s : BinarySection) : BinarySection :=
  mkBinarySection (BC s) (Name s) (Section s) (Contents s) (Address s) (Size s)
    (InputFileOffset s) (Alignment s) (ELFType s) (ELFFlags s) (IsRelro s)
    (Relocations s) (DynamicRelocations s) (PendingRelocations s) (Patches s)
    (Patcher s) (IsFinalized s) (OutputName s) (OutputAddress s) (OutputSize s)
    (OutputFileOffset s) (OutputContents s) (SectionNumber s) (SectionID s)
    (Index s) (IsReordered s) (IsAnonymous s) v.

Definition set_Count (v : Z) (g : Globals) : Globals := mkGlobals v (Deleted g).
Definition set_Deleted (v : list ptr) (g : Globals) : Globals := mkGlobals (Count g) v.

(** ** Member functions *)

Section Members.

Context {elf : ELFConstants}.

Local Open Scope method_scope.

(** *** Private helpers *)

(** [cantFail(Expected<T>)]: the value, or the process aborted through
    [llvm_unreachable] with the message of [cantFail]; the abort is recorded
    like a failed assertion. *)
Definition cantFail_message : string :=
  "Failure value returned from cantFail wrapped call".

Definition cantFail {S A : Type} (e : option A) : M S A :=
  match e with
  | Some v => ret v
  | None => fun s => (AssertionFailure cantFail_message, s)
  end.

(** [getName(SectionRef)]: [cantFail(Section.getName())]. *)
Definition getName_of {S : Type} (r : SectionRef) : M S string :=
  cantFail (ref_Name r).

(** [getContentsOrQuit]: no contents for an ELF [SHT_NOBITS] section,
    [exit(1)] (after a message on [errs()]) when the contents cannot be
    read.  The message names the section through [getName(Section)]; both
    callers have read that name from the same reference before, the
    constructor when it initialized [Name] and [updateContents] when its
    section was constructed, so that read returns. *)
Definition getContentsOrQuit {S : Type} (r : SectionRef) : M S StringRef :=
  if ref_objectIsELF r && (ref_ELFType r =? SHT_NOBITS) then ret StringRef_empty
  else match ref_Contents r with
       | Some c => ret c
       | None => exit 1
       end.

(** [++Count] on the static [uint64_t] counter. *)
Definition increment_Count : M Globals Z :=
  fun g => let c := Int.add64 (Count g) 1 in (Done c, set_Count c g).

(** [delete[] p]. *)
Definition delete_array (p : ptr) : M Globals unit :=
  modify (fun g => set_Deleted (Deleted g ++ [p]) g).

(** *** Basic property access *)

(** [isELF()] and [isMachO()] are declared in the header and defined
    elsewhere; their answers are parameters, carried by the context the
    section refers to. *)
Definition isELF (s : BinarySection) : bool := ctx_isELF (BC s).
Definition isMachO (s : BinarySection) : bool := ctx_isMachO (BC s).
Definition getName (s : BinarySection) : string := Name s.
Definition getAddress (s : BinarySection) : Z := Address s.
Definition getEndAddress (s : BinarySection) : Z := Int.add64 (Address s) (Size s).
Definition getSize (s : BinarySection) : Z := Size s.
Definition getInputFileOffset (s : BinarySection) : Z := InputFileOffset s.
Definition getAlignment (s : BinarySection) : Z := Alignment s.
Definition getELFType (s : BinarySection) : Z := ELFType s.
Definition getELFFlags (s : BinarySection) : Z := ELFFlags s.
Definition getContents (s : BinarySection) : StringRef := Contents s.
Definition getData (s : BinarySection) : ptr := Data (getContents s).
Definition clearContents : M BinarySection unit := modify (set_Contents StringRef_empty).

(** [Section != SectionRef()]. *)
Definition hasSectionRef (s : BinarySection) : bool :=
  match Section s with Some _ => true | None => false end.
Definition getSectionRef (s : BinarySection) : option SectionRef := Section s.

(** A query on [getSectionRef()], reached only behind [hasSectionRef() &&]. *)
Definition query_ref (q : SectionRef -> bool) (s : BinarySection) : bool :=
  match getSectionRef s with Some r => q r | None => false end.

Definition isText (s : BinarySection) : bool :=
  if isELF s then to_bool (Z.land (ELFFlags s) SHF_EXECINSTR)
  else hasSectionRef s && query_ref ref_isText s.

Definition isData (s : BinarySection) : bool :=
  if isELF s then
    (ELFType s =? SHT_PROGBITS)
    && to_bool (Z.land (ELFFlags s) (Z.lor SHF_ALLOC SHF_WRITE))
  else hasSectionRef s && query_ref ref_isData s.

Definition isBSS (s : BinarySection) : bool :=
  (ELFType s =? SHT_NOBITS)
  && to_bool (Z.land (ELFFlags s) (Z.lor SHF_ALLOC SHF_WRITE)).

Definition isTLS (s : BinarySection) : bool := to_bool (Z.land (ELFFlags s) SHF_TLS).
Definition isTBSS (s : BinarySection) : bool := isBSS s && isTLS s.
Definition isVirtual (s : BinarySection) : bool := ELFType s =? SHT_NOBITS.
Definition isRela (s : BinarySection) : bool := ELFType s =? SHT_RELA.
Definition isRelr (s : BinarySection) : bool := ELFType s =? SHT_RELR.
Definition isWritable (s : BinarySection) : bool := to_bool (Z.land (ELFFlags s) SHF_WRITE).

Definition isAllocatable (s : BinarySection) : bool :=
  if isELF s then to_bool (Z.land (ELFFlags s) SHF_ALLOC) && negb (isTBSS s)
  else (* On non-ELF assume all sections are allocatable. *) true.

Definition isNote (s : BinarySection) : bool := isELF s && (ELFType s =? SHT_NOTE).
Definition isReordered (s : BinarySection) : bool := IsReordered s.
Definition isAnonymous (s : BinarySection) : bool := IsAnonymous s.
Definition isRelro (s : BinarySection) : bool := IsRelro s.
Definition setRelro : M BinarySection unit := modify (set_IsRelro true).

(** [operator bool]. *)
Definition operator_bool (s : BinarySection) : bool := negb (ELFType s =? SHT_NULL).

(** Helper function to generate the proper ELF flags from section
    properties. *)
Definition getFlags (IsReadOnly IsText IsAllocatable : bool) : Z :=
  let Flags := 0 in
  let Flags := if IsAllocatable then Z.lor Flags SHF_ALLOC else Flags in
  let Flags := if negb IsReadOnly then Z.lor Flags SHF_WRITE else Flags in
  let Flags := if IsText then Z.lor Flags SHF_EXECINSTR else Flags in
  Flags.

(** *** Constructors *)

(** Copy a section: [BinarySection(BC, Name, const BinarySection &)].
    [getAlignment()] widens the [unsigned] member to [uint64_t] and the
    initializer narrows it back, the identity on [unsigned] values. *)
Definition BinarySection_copy (BC0 : BinaryContext) (Name0 : string)
    (Section0 : BinarySection) : M Globals BinarySection :=
  n <- increment_Count ;;
  ret {| BC := BC0; Name := Name0; Section := None;
         Contents := getContents Section0; Address := getAddress Section0;
         Size := getSize Section0; InputFileOffset := 0;
         Alignment := getAlignment Section0;
         ELFType := getELFType Section0; ELFFlags := getELFFlags Section0;
         IsRelro := false;
         Relocations := Relocations Section0;
         DynamicRelocations := Multiset.empty;
         PendingRelocations := PendingRelocations Section0;
         Patches := []; Patcher := None;
         IsFinalized := false; OutputName := Name0; OutputAddress := 0;
         OutputSize := 0; OutputFileOffset := 0;
         OutputContents := StringRef_empty; SectionNumber := n;
         SectionID := EmptyString; Index := 0; IsReordered := false;
         IsAnonymous := false; IsLinkOnly := false |}.

(** A section of the input file: [BinarySection(BC, SectionRef)].  The
    members are initialized in declaration order, so the name is read (and
    the process may abort), then the contents are read (and the process may
    exit), before the counter is incremented; [OutputName] is initialized
    from the member [Name].  When the
    context is not ELF the constructor leaves [ELFType] and [ELFFlags]
    uninitialized; [Indeterminate] are the values they happen to hold.
    [ELFSectionRef::getFlags()] is a [uint64_t] narrowed to [unsigned]. *)
Definition BinarySection_input (BC0 : BinaryContext) (Section0 : SectionRef)
    (Indeterminate : Z * Z) : M Globals BinarySection :=
  Name0 <- getName_of Section0 ;;
  c <- getContentsOrQuit Section0 ;;
  n <- increment_Count ;;
  let this :=
    {| BC := BC0; Name := Name0; Section := Some Section0;
       Contents := c; Address := ref_Address Section0;
       Size := ref_Size Section0; InputFileOffset := 0;
       Alignment := Int.wrap32 (ref_Alignment Section0);
       ELFType := fst Indeterminate; ELFFlags := snd Indeterminate;
       IsRelro := false;
       Relocations := Multiset.empty; DynamicRelocations := Multiset.empty;
       PendingRelocations := []; Patches := []; Patcher := None;
       IsFinalized := false; OutputName := Name0;
       OutputAddress := 0; OutputSize := 0; OutputFileOffset := 0;
       OutputContents := StringRef_empty; SectionNumber := n;
       SectionID := EmptyString; Index := 0; IsReordered := false;
       IsAnonymous := false; IsLinkOnly := false |} in
  if isELF this then
    ret (set_InputFileOffset (ref_ELFOffset Section0)
           (set_ELFFlags (Int.wrap32 (ref_ELFFlags Section0))
              (set_ELFType (ref_ELFType Section0) this)))
  else if isMachO this then
    ret (set_InputFileOffset (ref_MachOOffset Section0) this)
  else ret this.

(** A section without a region of the input file behind it:
    [BinarySection(BC, Name, Data, Size, Alignment, ELFType, ELFFlags)].
    The assertion sits in the constructor body, after the member
    initializers have run. *)
Definition BinarySection_synthetic (BC0 : BinaryContext) (Name0 : string)
    (Data0 : ptr) (Size0 Alignment0 ELFType0 ELFFlags0 : Z)
    : M Globals BinarySection :=
  let Contents0 := mkStringRef Data0 (if is_null Data0 then 0 else Size0) in
  n <- increment_Count ;;
  assert (0 <? Alignment0) "section alignment must be > 0" ;;;
  ret {| BC := BC0; Name := Name0; Section := None;
         Contents := Contents0; Address := 0; Size := Size0;
         InputFileOffset := 0; Alignment := Alignment0;
         ELFType := ELFType0; ELFFlags := ELFFlags0; IsRelro := false;
         Relocations := Multiset.empty; DynamicRelocations := Multiset.empty;
         PendingRelocations := []; Patches := []; Patcher := None;
         IsFinalized := true; OutputName := Name0; OutputAddress := 0;
         OutputSize := Size0; OutputFileOffset := 0;
         OutputContents := Contents0; SectionNumber := n;
         SectionID := EmptyString; Index := 0; IsReordered := false;
         IsAnonymous := false; IsLinkOnly := false |}.

(** *** Comparison operators *)

Definition operator_eq (this Other : BinarySection) : bool :=
  String.eqb (Name this) (Name Other) && (Address this =? Address Other)
  && (Size this =? Size Other) && (getData this =? getData Other)
  && (Alignment this =? Alignment Other) && (ELFType this =? ELFType Other)
  && (ELFFlags this =? ELFFlags Other).

Definition operator_ne (this Other : BinarySection) : bool :=
  negb (operator_eq this Other).

(** [a != b], [a > b] and [a < b] on [bool] operands. *)
Definition bool_ne (a b : bool) : bool := xorb a b.
Definition bool_gt (a b : bool) : bool := a && negb b.
Definition bool_lt (a b : bool) : bool := negb a && b.

(** Order sections by their immutable properties. *)
Definition operator_lt (this Other : BinarySection) : bool :=
  (* Allocatable before non-allocatable. *)
  if bool_ne (isAllocatable this) (isAllocatable Other) then
    bool_gt (isAllocatable this) (isAllocatable Other)
  (* Input sections take precedence. *)
  else if bool_ne (hasSectionRef this) (hasSectionRef Other) then
    bool_gt (hasSectionRef this) (hasSectionRef Other)
  (* Compare allocatable input sections by their address. *)
  else if hasSectionRef this && negb (getAddress this =? getAddress Other) then
    getAddress this <? getAddress Other
  else if hasSectionRef this && to_bool (getAddress this)
          && negb (getSize this =? getSize Other) then
    getSize this <? getSize Other
  (* Code before data. *)
  else if bool_ne (isText this) (isText Other) then
    bool_gt (isText this) (isText Other)
  (* Read-only before writable. *)
  else if bool_ne (isWritable this) (isWritable Other) then
    bool_lt (isWritable this) (isWritable Other)
  (* BSS at the end. *)
  else if bool_ne (isBSS this) (isBSS Other) then
    bool_lt (isBSS this) (isBSS Other)
  (* Otherwise, preserve the order of creation. *)
  else SectionNumber this <? SectionNumber Other.

(** *** Address queries *)

(** Does this section contain the given address? *)
Definition containsAddress (s : BinarySection) (Address0 : Z) : bool :=
  ((getAddress s <=? Address0) && (Address0 <? getEndAddress s))
  || ((getSize s =? 0) && (getAddress s =? Address0)).

(** Does this section contain the range [Address0, Address0 + Size0)? *)
Definition containsRange (s : BinarySection) (Address0 Size0 : Z) : bool :=
  containsAddress s Address0 && (Int.add64 Address0 Size0 <=? getEndAddress s).

End Members.

Section Stores.

Context {elf : ELFConstants}.

Local Open Scope method_scope.

(** *** Relocation stores *)

(** Does this section have any non-pending relocations? *)
Definition hasRelocations (s : BinarySection) : bool :=
  negb (Multiset.is_empty (Relocations s)).

(** Does this section have any pending relocations? *)
Definition hasPendingRelocations (s : BinarySection) : bool :=
  match PendingRelocations s with [] => false | _ => true end.

(** Remove non-pending relocation with the given offset. *)
Definition removeRelocationAt (Offset0 : Z) : M BinarySection bool :=
  this <- get ;;
  let Itr := Multiset.find Offset0 (Relocations this) in
  if negb (Itr =? Multiset.end_ (Relocations this))%nat then
    let End := Multiset.upper_bound Offset0 (Relocations this) in
    modify (set_Relocations (Multiset.erase_range Itr End (Relocations this))) ;;;
    ret true
  else ret false.

(** Add a new relocation at the given offset. *)
Definition addRelocation (Offset0 : Z) (Symbol0 : ptr) (Type0 Addend0 Value0 : Z)
    : M BinarySection unit :=
  this <- get ;;
  assert (Offset0 <? getSize this) "offset not within section bounds" ;;;
  modify (set_Relocations
            (Multiset.emplace (mkRelocation Offset0 Symbol0 Type0 Addend0 Value0)
               (Relocations this))).

(** Add a dynamic relocation: [addDynamicRelocation(const Relocation &)]. *)
Definition addDynamicRelocation (Reloc : Relocation) : M BinarySection unit :=
  this <- get ;;
  assert (Offset Reloc <? getSize this) "offset not within section bounds" ;;;
  modify (set_DynamicRelocations
            (Multiset.emplace Reloc (DynamicRelocations this))).

(** Add a dynamic relocation at the given offset: the five-argument
    overload builds the record and forwards it. *)
Definition addDynamicRelocation_at (Offset0 : Z) (Symbol0 : ptr)
    (Type0 Addend0 Value0 : Z) : M BinarySection unit :=
  addDynamicRelocation (mkRelocation Offset0 Symbol0 Type0 Addend0 Value0).

(** Add relocation against the original contents of this section. *)
Definition addPendingRelocation (Rel : Relocation) : M BinarySection unit :=
  modify (fun this => set_PendingRelocations (PendingRelocations this ++ [Rel]) this).

(** Add patch to the input contents of this section. *)
Definition addPatch (Offset0 : Z) (Bytes : list Byte.byte) : M BinarySection unit :=
  modify (fun this => set_Patches (Patches this ++ [mkBinaryPatch Offset0 Bytes]) this).

(** Register patcher for this section. *)
Definition registerPatcher (BPatcher : option ptr) : M BinarySection unit :=
  modify (set_Patcher BPatcher).

Definition getPatcher (s : BinarySection) : option ptr := Patcher s.

(** Lookup the relocation (if any) at the given offset.  The result is a
    pointer to the stored element, [None] for [nullptr]. *)
Definition getRelocationAt (s : BinarySection) (Offset0 : Z) : option Relocation :=
  let Itr := Multiset.find Offset0 (Relocations s) in
  if negb (Itr =? Multiset.end_ (Relocations s))%nat
  then Multiset.deref (Relocations s) Itr else None.

(** Lookup the dynamic relocation (if any) at the given offset. *)
Definition getDynamicRelocationAt (s : BinarySection) (Offset0 : Z)
    : option Relocation :=
  let Key := mkRelocation Offset0 0 0 0 0 in
  let Itr := Multiset.find (Offset Key) (DynamicRelocations s) in
  if negb (Itr =? Multiset.end_ (DynamicRelocations s))%nat
  then Multiset.deref (DynamicRelocations s) Itr else None.

Definition takeDynamicRelocationAt (Offset0 : Z)
    : M BinarySection (option Relocation) :=
  this <- get ;;
  let Key := mkRelocation Offset0 0 0 0 0 in
  let Itr := Multiset.find (Offset Key) (DynamicRelocations this) in
  if (Itr =? Multiset.end_ (DynamicRelocations this))%nat then ret None
  else
    let Reloc := Multiset.deref (DynamicRelocations this) Itr in
    modify (set_DynamicRelocations (Multiset.erase Itr (DynamicRelocations this))) ;;;
    ret Reloc.

(** *** Property accessors related to output data *)

Definition isFinalized (s : BinarySection) : bool := IsFinalized s.
Definition setIsFinalized : M BinarySection unit := modify (set_IsFinalized true).
Definition getOutputName (s : BinarySection) : string := OutputName s.
Definition getOutputSize (s : BinarySection) : Z := OutputSize s.
Definition getOutputContents (s : BinarySection) : StringRef := OutputContents s.
Definition getOutputData (s : BinarySection) : ptr := Data (getOutputContents s).
Definition getAllocAddress (s : BinarySection) : Z := getOutputData s.
Definition getOutputAddress (s : BinarySection) : Z := OutputAddress s.
Definition getOutputFileOffset (s : BinarySection) : Z := OutputFileOffset s.
Definition hasValidSectionID (s : BinarySection) : bool :=
  negb (String.eqb (SectionID s) EmptyString).
Definition getSectionID : M BinarySection string :=
  this <- get ;;
  assert (hasValidSectionID this) "trying to use uninitialized section id" ;;;
  ret (SectionID this).
Definition hasValidIndex (s : BinarySection) : bool := negb (Index s =? 0).
Definition getIndex (s : BinarySection) : Z := Index s.

(** *** Mutation *)

Definition setOutputAddress (Address0 : Z) : M BinarySection unit :=
  modify (set_OutputAddress Address0).
Definition setOutputFileOffset (Offset0 : Z) : M BinarySection unit :=
  modify (set_OutputFileOffset Offset0).
Definition setSectionID (ID : string) : M BinarySection unit :=
  this <- get ;;
  assert (negb (hasValidSectionID this)) "trying to set section id twice" ;;;
  modify (set_SectionID ID).
Definition setIndex (I : Z) : M BinarySection unit := modify (set_Index I).
Definition setOutputName (Name0 : string) : M BinarySection unit :=
  modify (set_OutputName Name0).
Definition setAnonymous (Flag : bool) : M BinarySection unit :=
  modify (set_IsAnonymous Flag).
Definition isLinkOnly (s : BinarySection) : bool := IsLinkOnly s.
Definition setLinkOnly : M BinarySection unit := modify (set_IsLinkOnly true).

(** Change contents of the section.  The buffer the section owns is
    released first: one it points to, while no section id has been set,
    and which is not the view of the input file.  The comparison with the
    input view is evaluated only when the earlier conjuncts hold and the
    section has a section reference. *)
Definition updateContents (NewData : ptr) (NewSize : Z)
    : M (Globals * BinarySection) unit :=
  this <- gets snd ;;
  owned <-
    (if negb (is_null (getOutputData this)) && negb (hasValidSectionID this) then
       if negb (hasSectionRef this) then ret true
       else match getSectionRef this with
            | Some r =>
                c <- getContentsOrQuit r ;;
                ret (negb (Data (OutputContents this) =? Data c))
            | None => ret true
            end
     else ret false) ;;
  (if owned : bool then on_globals (delete_array (getOutputData this)) else ret tt) ;;;
  on_this (modify (set_OutputContents
                     (mkStringRef NewData (if is_null NewData then 0 else NewSize)))) ;;;
  on_this (modify (set_OutputSize NewSize)) ;;;
  on_this (modify (set_IsFinalized true)).

(** Set output info for this section. *)
Definition update (NewData : ptr) (NewSize NewAlignment NewELFType NewELFFlags : Z)
    : M (Globals * BinarySection) unit :=
  assert (0 <? NewAlignment) "section alignment must be > 0" ;;;
  on_this (modify (set_Alignment NewAlignment)) ;;;
  on_this (modify (set_ELFType NewELFType)) ;;;
  on_this (modify (set_ELFFlags NewELFFlags)) ;;;
  updateContents NewData NewSize.

(** When writing section contents, add [PaddingSize] zero bytes at the end. *)
Definition addPadding (PaddingSize : Z) : M BinarySection unit :=
  modify (fun this => set_OutputSize (Int.add64 (OutputSize this) PaddingSize) this).

End Stores.

(** ** Free functions of the header *)

(** [llvm::ArrayRef<char>]: a pointer and a length. *)
Record ArrayRef : Type := mkArrayRef {
  array_Data : ptr;
  array_Length : Z
}.

(** [memcpy(dst, src, n)], for regions that do not overlap: the [n] bytes
    at [dst] become those at [src]. *)
Definition memcpy (dst src : ptr) (n : Z) (m : Memory) : Memory :=
  fun a => if (dst <=? a) && (a <? dst + n) then m (src + (a - dst)) else m a.

(** [copyByteArray(Data, Size)].  [new uint8_t[Size]] returns storage of
    its own; [Array] is the pointer it returns. *)
Definition copyByteArray (Array : ptr) (Data0 : ptr) (Size0 : Z) : M Memory ptr :=
  bind (modify (memcpy Array Data0 Size0)) (fun _ => ret Array).

(** [copyByteArray(ArrayRef<char>)]. *)
Definition copyByteArray_buffer (Array : ptr) (Buffer : ArrayRef) : M Memory ptr :=
  copyByteArray Array (array_Data Buffer) (array_Length Buffer).

(** ** The ordering policy

    A cascade of tie-breaks, each applied only when the prior ones are
    equal, in two readings.  [tie_breaks_as_worded] follows the words of
    the specification: step 3, ascending input address, is among the
    sections sourced from the input file; step 4, ascending size, is for
    any two sections whose addresses tie and are nonzero.  [tie_breaks]
    differs in step 4 only, which it keeps to the sections sourced from the
    input file, like step 3. *)
Module OrderingPolicy.

Section Policy.

Context {elf : ELFConstants}.

Definition tie_break : Type := BinarySection -> BinarySection -> comparison.

(** Sections with property [p] before sections without it. *)
Definition first_those (p : BinarySection -> bool) : tie_break :=
  fun a b =>
    match p a, p b with
    | true, false => Lt
    | false, true => Gt
    | _, _ => Eq
    end.

(** Ascending order of a numeric attribute. *)
Definition ascending (f : BinarySection -> Z) : tie_break :=
  fun a b => f a ?= f b.

(** A tie-break that applies among the sections with property [p] only. *)
Definition among (p : BinarySection -> bool) (c : tie_break) : tie_break :=
  fun a b => if p a && p b then c a b else Eq.

(** A tie-break that applies only under a condition on the pair. *)
Definition provided (cond : BinarySection -> BinarySection -> bool)
    (c : tie_break) : tie_break :=
  fun a b => if cond a b then c a b else Eq.

Definition addresses_tie_and_nonzero (a b : BinarySection) : bool :=
  (getAddress a =? getAddress b) && negb (getAddress a =? 0).

(** The cascade as the specification words it. *)
Definition tie_breaks_as_worded : list tie_break :=
  [ first_those isAllocatable;
    first_those hasSectionRef;
    among hasSectionRef (ascending getAddress);
    provided addresses_tie_and_nonzero (ascending getSize);
    first_those isText;
    first_those (fun s => negb (isWritable s));
    first_those (fun s => negb (isBSS s));
    ascending SectionNumber ].

(** The cascade with step 4 among the sections sourced from the input
    file. *)
Definition tie_breaks : list tie_break :=
  [ first_those isAllocatable;
    first_those hasSectionRef;
    among hasSectionRef (ascending getAddress);
    among hasSectionRef (provided addresses_tie_and_nonzero (ascending getSize));
    first_those isText;
    first_those (fun s => negb (isWritable s));
    first_those (fun s => negb (isBSS s));
    ascending SectionNumber ].

(** The first tie-break that is not equal decides. *)
Fixpoint cascade (l : list tie_break) (a b : BinarySection) : comparison :=
  match l with
  | [] => Eq
  | c :: l' =>
      match c a b with
      | Eq => cascade l' a b
      | r => r
      end
  end.

Definition compare (a b : BinarySection) : comparison := cascade tie_breaks a b.

Definition is_Lt (c : comparison) : bool :=
  match c with Lt => true | _ => false end.

Definition before (a b : BinarySection) : bool := is_Lt (compare a b).

Definition compare_as_worded (a b : BinarySection) : comparison :=
  cascade tie_breaks_as_worded a b.

Definition before_as_worded (a b : BinarySection) : bool :=
  is_Lt (compare_as_worded a b).

(** The sort key the cascade [tie_breaks] compares lexicographically. *)
Definition key (s : BinarySection) : list Z :=
  [ Z.b2z (negb (isAllocatable s));
    Z.b2z (negb (hasSectionRef s));
    if hasSectionRef s then getAddress s else 0;
    if hasSectionRef s && negb (getAddress s =? 0) then getSize s else 0;
    Z.b2z (negb (isText s));
    Z.b2z (isWritable s);
    Z.b2z (isBSS s);
    SectionNumber s ].

Fixpoint lex (k1 k2 : list Z) : comparison :=
  match k1, k2 with
  | x :: k1', y :: k2' =>
      match x ?= y with
      | Eq => lex k1' k2'
      | r => r
      end
  | [], [] => Eq
  | [], _ :: _ => Lt
  | _ :: _, [] => Gt
  end.

End Policy.

End OrderingPolicy.

(** ** Sections over the life of the process

    The sections alive, in creation order, with the process globals.  A
    step constructs a section with one of the three constructors, changes a
    live section in a way that respects its [const] members, or destroys
    one.  A constructor that does not return ends the process, so it is not
    a step. *)
Module Process.

Section Steps.

Context {elf : ELFConstants}.

Record World : Type := mkWorld {
  globals : Globals;
  live : list BinarySection
}.

(** The counter has static storage and starts at zero. *)
Definition initial : World := mkWorld (mkGlobals 0 []) [].

(** The [const] data members and the context reference. *)
Definition same_const_members (s s' : BinarySection) : Prop :=
  BC s' = BC s /\ Section s' = Section s /\ Address s' = Address s
  /\ Size s' = Size s /\ SectionNumber s' = SectionNumber s.

(** The counter can be incremented without wrapping. *)
Definition counter_left (g : Globals) : Prop := Count g + 1 < Int.modulus64.

Inductive step (w : World) : World -> Prop :=
| step_input BC0 r ind s g' :
    counter_left (globals w) ->
    BinarySection_input BC0 r ind (globals w) = (Done s, g') ->
    step w (mkWorld g' (live w ++ [s]))
| step_synthetic BC0 Name0 Data0 Size0 Alignment0 ELFType0 ELFFlags0 s g' :
    counter_left (globals w) ->
    BinarySection_synthetic BC0 Name0 Data0 Size0 Alignment0 ELFType0 ELFFlags0
      (globals w) = (Done s, g') ->
    step w (mkWorld g' (live w ++ [s]))
| step_copy BC0 Name0 i src s g' :
    counter_left (globals w) ->
    live w !! i = Some src ->
    BinarySection_copy BC0 Name0 src (globals w) = (Done s, g') ->
    step w (mkWorld g' (live w ++ [s]))
| step_member i s s' g' :
    live w !! i = Some s ->
    same_const_members s s' ->
    Count g' = Count (globals w) ->
    step w (mkWorld g' (<[i := s']> (live w)))
| step_destroy i g' :
    Count g' = Count (globals w) ->
    step w (mkWorld g' (delete i (live w))).

Inductive reachable : World -> Prop :=
| reachable_initial : reachable initial
| reachable_step w w' : reachable w -> step w w' -> reachable w'.

(** Creation numbers are positive, bounded by the counter and strictly
    increasing along the live sections. *)
Definition numbered (w : World) : Prop :=
  0 <= Count (globals w) < Int.modulus64
  /\ Forall (fun s => 0 < SectionNumber s <= Count (globals w)) (live w)
  /\ StronglySorted Z.lt (SectionNumber <$> live w).

End Steps.

End Process.

(** ** Notions the statements use *)

(** The geometry fields hold values of their type. *)
Definition wf_geometry (s : BinarySection) : Prop :=
  Int.in_u64 (Address s) /\ Int.in_u64 (Size s).

(** Both ordered stores satisfy the representation invariant. *)
Definition stores_ordered (s : BinarySection) : Prop :=
  Multiset.ordered (Relocations s) /\ Multiset.ordered (DynamicRelocations s).

Section Rereading.

Context {elf : ELFConstants}.

(** The contents of the input section can be read (again). *)
Definition contents_available (r : SectionRef) : bool :=
  (ref_objectIsELF r && (ref_ELFType r =? SHT_NOBITS))
  || match ref_Contents r with Some _ => true | None => false end.

Definition can_reread (s : BinarySection) : bool :=
  match Section s with
  | Some r => contents_available r
  | None => true
  end.

End Rereading.

(** Successive calls of [addPadding]. *)
Fixpoint addPaddings (ps : list Z) : M BinarySection unit :=
  match ps with
  | [] => ret tt
  | p :: ps' => bind (addPadding p) (fun _ => addPaddings ps')
  end.

Definition total (ps : list Z) : Z := fold_right Z.add 0 ps.

(** [s] with every data member that [operator==] does not read replaced
    by that of [o]; of the input contents, the length. *)
Definition replace_uncompared (o s : BinarySection) : BinarySection :=
  {| BC := BC o; Name := Name s; Section := Section o;
     Contents := mkStringRef (Data (Contents s)) (Length (Contents o));
     Address := Address s; Size := Size s;
     InputFileOffset := InputFileOffset o; Alignment := Alignment s;
     ELFType := ELFType s; ELFFlags := ELFFlags s; IsRelro := IsRelro o;
     Relocations := Relocations o; DynamicRelocations := DynamicRelocations o;
     PendingRelocations := PendingRelocations o; Patches := Patches o;
     Patcher := Patcher o; IsFinalized := IsFinalized o;
     OutputName := OutputName o; OutputAddress := OutputAddress o;
     OutputSize := OutputSize o; OutputFileOffset := OutputFileOffset o;
     OutputContents := OutputContents o; SectionNumber := SectionNumber o;
     SectionID := SectionID o; Index := Index o; IsReordered := IsReordered o;
     IsAnonymous := IsAnonymous o; IsLinkOnly := IsLinkOnly o |}.

(** ** Notions the further statements use *)

Section FurtherNotions.

Context {elf : ELFConstants}.

(** The view [getContentsOrQuit] returns for a section reference whose
    contents are available. *)
Definition input_view (r : SectionRef) : StringRef :=
  if ref_objectIsELF r && (ref_ELFType r =? SHT_NOBITS) then StringRef_empty
  else match ref_Contents r with
       | Some c => c
       | None => StringRef_empty
       end.

(** The section points to an output buffer, has no section id, and the
    buffer is not the view of its input section. *)
Definition owns_output_buffer (s : BinarySection) : bool :=
  negb (is_null (getOutputData s)) && negb (hasValidSectionID s)
  && match Section s with
     | Some r => negb (getOutputData s =? Data (input_view r))
     | None => true
     end.

(** The three flag bits [getFlags] combines, and the TLS bit, are nonzero
    and pairwise without a common bit. *)
Definition flag_bits_disjoint : Prop :=
  SHF_WRITE <> 0 /\ SHF_ALLOC <> 0 /\ SHF_EXECINSTR <> 0
  /\ Z.land SHF_ALLOC SHF_WRITE = 0
  /\ Z.land SHF_ALLOC SHF_EXECINSTR = 0
  /\ Z.land SHF_WRITE SHF_EXECINSTR = 0
  /\ Z.land SHF_ALLOC SHF_TLS = 0
  /\ Z.land SHF_WRITE SHF_TLS = 0
  /\ Z.land SHF_EXECINSTR SHF_TLS = 0.

(** A relocation is recorded, a patch is queued, the contents are
    replaced and padded and the layout is assigned. *)
Definition record_patch_finalize_place
    (Reloc : Relocation) (PatchOffset : Z) (Bytes : list Byte.byte)
    (NewData : ptr) (NewSize Padding OutAddress OutOffset Idx : Z)
    : M (Globals * BinarySection) unit :=
  bind (on_this (addRelocation (Offset Reloc) (Symbol Reloc) (Type_ Reloc)
                   (Addend Reloc) (Value Reloc))) (fun _ =>
  bind (on_this (addPatch PatchOffset Bytes)) (fun _ =>
  bind (updateContents NewData NewSize) (fun _ =>
  bind (on_this (addPadding Padding)) (fun _ =>
  bind (on_this (setOutputAddress OutAddress)) (fun _ =>
  bind (on_this (setOutputFileOffset OutOffset)) (fun _ =>
  on_this (setIndex Idx))))))).

End FurtherNotions.

(** Two regions of memory have no address in common. *)
Definition regions_disjoint (p : ptr) (n : Z) (q : ptr) (k : Z) : Prop :=
  p + n <= q \/ q + k <= p.

(** ** Sample sections

    Each sample is the section one of the constructors returns, see
    [samples_constructed]. *)

Definition ELF_context : BinaryContext := mkBinaryContext true false.
Definition MachO_context : BinaryContext := mkBinaryContext false true.

(** The section reference of [.text] in an ELF binary: 16 bytes at
    address 4096. *)
Definition text_ref : SectionRef :=
  {| ref_Name := Some ".text"%string; ref_Address := 4096; ref_Size := 16;
     ref_Alignment := 16; ref_Contents := Some (mkStringRef 65536 16);
     ref_isText := true; ref_isData := false; ref_objectIsELF := true;
     ref_ELFType := @SHT_PROGBITS gABI;
     ref_ELFFlags := Z.lor (@SHF_ALLOC gABI) (@SHF_EXECINSTR gABI);
     ref_ELFOffset := 4096; ref_MachOOffset := 0 |}.

(** The section reference of an empty section at address 8192. *)
Definition marker_ref : SectionRef :=
  {| ref_Name := Some ".marker"%string; ref_Address := 8192; ref_Size := 0;
     ref_Alignment := 1; ref_Contents := Some (mkStringRef 65552 0);
     ref_isText := false; ref_isData := false; ref_objectIsELF := true;
     ref_ELFType := @SHT_PROGBITS gABI;
     ref_ELFFlags := @SHF_ALLOC gABI;
     ref_ELFOffset := 8192; ref_MachOOffset := 0 |}.

(** A section as a constructor leaves it, given the members the
    constructors differ in. *)
Definition constructed (ctx : BinaryContext) (name : string)
    (ref : option SectionRef) (contents : StringRef)
    (addr size offset align type flags : Z) (finalized : bool)
    (outsize : Z) (outcontents : StringRef) (number : Z) : BinarySection :=
  {| BC := ctx; Name := name; Section := ref;
     Contents := contents; Address := addr; Size := size;
     InputFileOffset := offset; Alignment := align;
     ELFType := type; ELFFlags := flags; IsRelro := false;
     Relocations := Multiset.empty; DynamicRelocations := Multiset.empty;
     PendingRelocations := []; Patches := []; Patcher := None;
     IsFinalized := finalized; OutputName := name; OutputAddress := 0;
     OutputSize := outsize; OutputFileOffset := 0;
     OutputContents := outcontents; SectionNumber := number;
     SectionID := EmptyString; Index := 0; IsReordered := false;
     IsAnonymous := false; IsLinkOnly := false |}.

(** [.text], the first section created from the input file. *)
Definition text16 : BinarySection :=
  constructed ELF_context ".text" (Some text_ref) (mkStringRef 65536 16)
    4096 16 4096 16 1 6 false 0 StringRef_empty 1.

(** A synthetic 16-byte writable data section without bytes, created
    second. *)
Definition data16 : BinarySection :=
  constructed ELF_context ".data" None StringRef_empty
    0 16 0 1 1 3 true 16 StringRef_empty 2.

(** The empty input section at address 8192, created third. *)
Definition empty_at_8192 : BinarySection :=
  constructed ELF_context ".marker" (Some marker_ref) (mkStringRef 65552 0)
    8192 0 8192 1 1 2 false 0 StringRef_empty 3.

(** A synthetic thread-local BSS section with the allocatable flag set
    ([SHT_NOBITS]; [SHF_ALLOC], [SHF_WRITE] and [SHF_TLS]), the first
    section of a binary of the given format. *)
Definition tbss_section (ctx : BinaryContext) : BinarySection :=
  constructed ctx ".tbss" None StringRef_empty
    0 64 0 8 8 1027 true 64 StringRef_empty 1.

(** Two dynamic relocations of different kinds at offset 4 of the data
    section, added through [addDynamicRelocation]. *)
Definition reloc_a : Relocation := mkRelocation 4 0 1 0 0.
Definition reloc_b : Relocation := mkRelocation 4 0 2 0 0.
Definition two_at_4 : BinarySection :=
  state_of (bind (addDynamicRelocation reloc_a)
              (fun _ => addDynamicRelocation reloc_b) data16).

(** The synthetic note section built from three bytes at address 4096,
    the first section of its process. *)
Definition note3 : BinarySection :=
  constructed ELF_context ".note" None (mkStringRef 4096 3)
    0 3 0 1 7 0 true 3 (mkStringRef 4096 3) 1.

(** The process after that section has been constructed. *)
Definition one_section : Process.World :=
  Process.mkWorld (mkGlobals 1 []) [note3].

(** The process after [text16], [data16] and [empty_at_8192] have been
    constructed and [data16] has been destroyed. *)
Definition two_of_three : Process.World :=
  Process.mkWorld (mkGlobals 3 []) [text16; empty_at_8192].

(** The section reference of an empty executable section at address 4096,
    where [.text] starts. *)
Definition start_ref : SectionRef :=
  {| ref_Name := Some ".text.start"%string; ref_Address := 4096; ref_Size := 0;
     ref_Alignment := 1; ref_Contents := Some (mkStringRef 65536 0);
     ref_isText := true; ref_isData := false; ref_objectIsELF := true;
     ref_ELFType := @SHT_PROGBITS gABI;
     ref_ELFFlags := Z.lor (@SHF_ALLOC gABI) (@SHF_EXECINSTR gABI);
     ref_ELFOffset := 4096; ref_MachOOffset := 0 |}.

(** That section, created second, after [text16]. *)
Definition empty_at_4096 : BinarySection :=
  constructed ELF_context ".text.start" (Some start_ref) (mkStringRef 65536 0)
    4096 0 4096 1 1 6 false 0 StringRef_empty 2.

(** The copy of [text16], created third, and the copy of [empty_at_4096],
    created fourth: both at address 4096, of sizes 16 and 0. *)
Definition text16_copy : BinarySection :=
  constructed ELF_context ".text.copy" None (mkStringRef 65536 16)
    4096 16 0 16 1 6 false 0 StringRef_empty 3.

Definition empty_copy : BinarySection :=
  constructed ELF_context ".start.copy" None (mkStringRef 65536 0)
    4096 0 0 1 1 6 false 0 StringRef_empty 4.

(** The process after these four sections have been constructed. *)
Definition with_copies : Process.World :=
  Process.mkWorld (mkGlobals 4 [])
    [text16; empty_at_4096; text16_copy; empty_copy].

(** The section reference of the last page of the 64-bit address space:
    4096 bytes at address [2^64 - 4096]. *)
Definition top_ref : SectionRef :=
  {| ref_Name := Some ".top"%string; ref_Address := 18446744073709547520;
     ref_Size := 4096;
     ref_Alignment := 4096; ref_Contents := Some (mkStringRef 65536 4096);
     ref_isText := false; ref_isData := true; ref_objectIsELF := true;
     ref_ELFType := @SHT_PROGBITS gABI;
     ref_ELFFlags := @SHF_ALLOC gABI;
     ref_ELFOffset := 4096; ref_MachOOffset := 0 |}.

(** That section, the first section created. *)
Definition top_page : BinarySection :=
  constructed ELF_context ".top" (Some top_ref) (mkStringRef 65536 4096)
    18446744073709547520 4096 4096 4096 1 2 false 0 StringRef_empty 1.

(** A section reference whose name cannot be read, and one whose name can
    be read while its contents cannot. *)
Definition unnamed_ref : SectionRef :=
  {| ref_Name := None; ref_Address := 4096; ref_Size := 16;
     ref_Alignment := 16; ref_Contents := None;
     ref_isText := true; ref_isData := false; ref_objectIsELF := true;
     ref_ELFType := @SHT_PROGBITS gABI;
     ref_ELFFlags := Z.lor (@SHF_ALLOC gABI) (@SHF_EXECINSTR gABI);
     ref_ELFOffset := 4096; ref_MachOOffset := 0 |}.

Definition unreadable_ref : SectionRef :=
  {| ref_Name := Some ".text"%string; ref_Address := 4096; ref_Size := 16;
     ref_Alignment := 16; ref_Contents := None;
     ref_isText := true; ref_isData := false; ref_objectIsELF := true;
     ref_ELFType := @SHT_PROGBITS gABI;
     ref_ELFFlags := Z.lor (@SHF_ALLOC gABI) (@SHF_EXECINSTR gABI);
     ref_ELFOffset := 4096; ref_MachOOffset := 0 |}.

(** * Properties *)

(** ** Machine arithmetic *)

Lemma modulus64_eq : Int.modulus64 = 18446744073709551616.
Proof. reflexivity. Qed.

Lemma wrap64_small x : Int.in_u64 x -> Int.wrap64 x = x.
Proof. unfold Int.in_u64, Int.wrap64. intros H. apply Z.mod_small. exact H. Qed.

Lemma wrap64_range x : Int.in_u64 (Int.wrap64 x).
Proof.
  unfold Int.in_u64, Int.wrap64. apply Z.mod_pos_bound.
  rewrite modulus64_eq. lia.
Qed.

Lemma add64_exact a b :
  0 <= a -> 0 <= b -> a + b < Int.modulus64 -> Int.add64 a b = a + b.
Proof.
  intros Ha Hb Hlt. unfold Int.add64. apply wrap64_small.
  unfold Int.in_u64. lia.
Qed.

Lemma add64_zero a : Int.in_u64 a -> Int.add64 a 0 = a.
Proof. intros H. unfold Int.add64. rewrite Z.add_0_r. apply wrap64_small, H. Qed.

Lemma to_bool_true x : to_bool x = true <-> x <> 0.
Proof. unfold to_bool. rewrite negb_true_iff, Z.eqb_neq. tauto. Qed.

(** ** The samples *)

Lemma samples_constructed :
  @BinarySection_input gABI ELF_context text_ref (0, 0) (mkGlobals 0 [])
  = (Done text16, mkGlobals 1 [])
  /\ BinarySection_synthetic ELF_context ".data" nullptr 16 1
       (@SHT_PROGBITS gABI) (Z.lor (@SHF_ALLOC gABI) (@SHF_WRITE gABI))
       (mkGlobals 1 [])
     = (Done data16, mkGlobals 2 [])
  /\ @BinarySection_input gABI ELF_context marker_ref (0, 0) (mkGlobals 2 [])
     = (Done empty_at_8192, mkGlobals 3 [])
  /\ (forall ctx,
        BinarySection_synthetic ctx ".tbss" nullptr 64 8 (@SHT_NOBITS gABI)
          (Z.lor (@SHF_ALLOC gABI) (Z.lor (@SHF_WRITE gABI) (@SHF_TLS gABI)))
          (mkGlobals 0 [])
        = (Done (tbss_section ctx), mkGlobals 1 []))
  /\ BinarySection_synthetic ELF_context ".note" 4096 3 1 (@SHT_NOTE gABI) 0
       (mkGlobals 0 [])
     = (Done note3, mkGlobals 1 []).
Proof. repeat split. Qed.

(** ** Classification predicates *)

Section Classification.

Context {elf : ELFConstants}.

Lemma isTBSS_split s : isTBSS s = true <-> isBSS s = true /\ isTLS s = true.
Proof. unfold isTBSS. apply andb_true_iff. Qed.

Lemma isAllocatable_ELF s :
  isELF s = true ->
  isAllocatable s = to_bool (Z.land (ELFFlags s) SHF_ALLOC) && negb (isTBSS s).
Proof. intros H. unfold isAllocatable. rewrite H. reflexivity. Qed.

Lemma isAllocatable_not_ELF s : isELF s = false -> isAllocatable s = true.
Proof. intros H. unfold isAllocatable. rewrite H. reflexivity. Qed.

(** C4 (as amended): a section whose type and flags mark it both BSS and
    TLS is not allocatable when the binary is ELF, whatever the state of
    the allocatable flag; when the binary is not ELF it is allocatable, as
    every section then is. *)
Theorem isAllocatable_TBSS s :
  isTBSS s = true -> isAllocatable s = negb (isELF s).
Proof.
  intros Htbss. destruct (isELF s) eqn:Helf.
  - rewrite (isAllocatable_ELF s Helf), Htbss. apply andb_false_r.
  - apply isAllocatable_not_ELF, Helf.
Qed.

End Classification.

Lemma isAllocatable_TBSS_witness :
  @isELF (tbss_section ELF_context) = true
  /\ @isTBSS gABI (tbss_section ELF_context) = true
  /\ to_bool (Z.land (ELFFlags (tbss_section ELF_context)) (@SHF_ALLOC gABI)) = true
  /\ @isAllocatable gABI (tbss_section ELF_context) = false.
Proof.
  split; [reflexivity|]. split; [reflexivity|]. split; [reflexivity|].
  apply (@isAllocatable_TBSS gABI (tbss_section ELF_context)). reflexivity.
Defined.

(** C4, the claim as stated fails: the same type and flags on a section of
    a Mach-O binary mark it TLS and BSS, and [isAllocatable] is true. *)
Lemma isAllocatable_TBSS_MachO :
  @isTBSS gABI (tbss_section MachO_context) = true
  /\ @isAllocatable gABI (tbss_section MachO_context) = true.
Proof. split; reflexivity. Qed.

(** ** Address queries *)

Lemma getEndAddress_exact s :
  wf_geometry s -> Address s + Size s < Int.modulus64 ->
  getEndAddress s = Address s + Size s.
Proof.
  intros [[Ha _] [Hs _]] Hlt. unfold getEndAddress. apply add64_exact; lia.
Qed.

Lemma containsAddress_unfold s A :
  containsAddress s A = true <->
  (getAddress s <= A < getEndAddress s) \/ (getSize s = 0 /\ getAddress s = A).
Proof.
  unfold containsAddress.
  rewrite orb_true_iff, !andb_true_iff, Z.leb_le, Z.ltb_lt, !Z.eqb_eq.
  tauto.
Qed.

(** C7 (as amended): [containsAddress] and [containsRange] read the input
    address and size only.  With a nonzero size, [containsAddress A] holds
    exactly when [A] lies between the start address and [getEndAddress()],
    the sum of start and size in 64-bit arithmetic, which is the sum itself
    when that is below [2^64]; with size zero it holds exactly when [A] is
    the start address. *)
Theorem containsAddress_input_geometry s A :
  wf_geometry s ->
  (getSize s <> 0 ->
     (containsAddress s A = true <-> getAddress s <= A < getEndAddress s)
     /\ (getAddress s + getSize s < Int.modulus64 ->
         (containsAddress s A = true <-> getAddress s <= A < getAddress s + getSize s)))
  /\ (getSize s = 0 -> (containsAddress s A = true <-> A = getAddress s))
  /\ (forall Sz,
        containsRange s A Sz = true <->
        containsAddress s A = true /\ Int.add64 A Sz <= getEndAddress s)
  /\ (forall s', Address s' = Address s -> Size s' = Size s ->
        containsAddress s' A = containsAddress s A
        /\ forall Sz, containsRange s' A Sz = containsRange s A Sz).
Proof.
  intros Hwf. split; [|split; [|split]].
  - intros Hnz. split.
    + rewrite containsAddress_unfold. tauto.
    + intros Hfit. rewrite containsAddress_unfold.
      rewrite (getEndAddress_exact s Hwf) by exact Hfit.
      unfold getAddress, getSize in *. tauto.
  - intros Hz. rewrite containsAddress_unfold. split.
    + intros [Hin | [_ Heq]]; [|congruence].
      unfold getEndAddress, getSize, getAddress in *. rewrite Hz in Hin.
      rewrite add64_zero in Hin by apply Hwf. lia.
    + intros ->. right. split; [assumption|reflexivity].
  - intros Sz. unfold containsRange. rewrite andb_true_iff, Z.leb_le. tauto.
  - intros s' Ha Hs. split; [|intros Sz];
      unfold containsRange, containsAddress, getAddress, getEndAddress, getSize;
      rewrite Ha, Hs; reflexivity.
Qed.

Lemma containsAddress_input_geometry_witness :
  wf_geometry text16
  /\ (containsAddress text16 4100 = true
      <-> getAddress text16 <= 4100 < getAddress text16 + getSize text16)
  /\ wf_geometry empty_at_8192
  /\ (containsAddress empty_at_8192 8192 = true <-> 8192 = getAddress empty_at_8192).
Proof.
  assert (Hwf : wf_geometry text16).
  { unfold wf_geometry, Int.in_u64. rewrite modulus64_eq. cbn. lia. }
  assert (Hwf0 : wf_geometry empty_at_8192).
  { unfold wf_geometry, Int.in_u64. rewrite modulus64_eq. cbn. lia. }
  split; [exact Hwf|]. split.
  - destruct (containsAddress_input_geometry text16 4100 Hwf) as (Hnz & _).
    apply Hnz; [discriminate|]. rewrite modulus64_eq. cbn. lia.
  - split; [exact Hwf0|].
    destruct (containsAddress_input_geometry empty_at_8192 8192 Hwf0)
      as (_ & Hz & _).
    apply Hz. reflexivity.
Defined.

(** C7, the claim as stated fails: the section of the input file on the
    last page of the address space has size 4096 and start address
    [2^64 - 4096], so its end address is zero in 64-bit arithmetic.  Its
    start address lies between start and start plus size, and
    [containsAddress] is false there, as it is at every address. *)
Lemma containsAddress_last_page :
  @BinarySection_input gABI ELF_context top_ref (0, 0) (mkGlobals 0 [])
  = (Done top_page, mkGlobals 1 [])
  /\ wf_geometry top_page
  /\ getSize top_page <> 0
  /\ getEndAddress top_page = 0
  /\ getAddress top_page <= 18446744073709547520
      < getAddress top_page + getSize top_page
  /\ containsAddress top_page 18446744073709547520 = false
  /\ (forall A, 0 <= A -> containsAddress top_page A = false).
Proof.
  assert (Hend : getEndAddress top_page = 0) by reflexivity.
  split; [reflexivity|].
  split; [unfold wf_geometry, Int.in_u64; rewrite modulus64_eq; cbn; lia|].
  split; [discriminate|]. split; [exact Hend|].
  split; [cbn; lia|]. split; [reflexivity|].
  intros A HA. unfold containsAddress. rewrite Hend.
  change (getSize top_page =? 0) with false.
  rewrite andb_false_l, orb_false_r. apply andb_false_iff. right.
  apply Z.ltb_ge, HA.
Qed.

(** ** Section identifier *)

Lemma setSectionID_unset s ID :
  hasValidSectionID s = false -> setSectionID ID s = (Done tt, set_SectionID ID s).
Proof.
  intros H. unfold setSectionID, bind, get, assert, modify. simpl. rewrite H.
  reflexivity.
Qed.

Lemma setSectionID_set s ID :
  hasValidSectionID s = true ->
  setSectionID ID s = (AssertionFailure "trying to set section id twice", s).
Proof.
  intros H. unfold setSectionID, bind, get, assert, modify. simpl. rewrite H.
  reflexivity.
Qed.

Lemma hasValidSectionID_set_SectionID s ID :
  hasValidSectionID (set_SectionID ID s) = negb (String.eqb ID EmptyString).
Proof. reflexivity. Qed.

(** C8 (as amended): [setSectionID] returns exactly when the section has
    no valid (non-empty) id.  Once a non-empty id has been assigned, a
    further call trips the assertion and the section keeps the id it had.
    A call that assigns the empty id leaves the section without a valid id,
    and a further call returns and assigns its id. *)
Theorem setSectionID_at_most_once s ID1 ID2 :
  hasValidSectionID s = false ->
  ID1 <> EmptyString ->
  (forall s0 ID, returned (result_of (setSectionID ID s0)) = negb (hasValidSectionID s0))
  /\ setSectionID ID1 s = (Done tt, set_SectionID ID1 s)
  /\ (bind (setSectionID ID1) (fun _ => setSectionID ID2)) s
     = (AssertionFailure "trying to set section id twice", set_SectionID ID1 s)
  /\ SectionID (state_of ((bind (setSectionID ID1) (fun _ => setSectionID ID2)) s)) = ID1
  /\ (bind (setSectionID EmptyString) (fun _ => setSectionID ID2)) s
     = (Done tt, set_SectionID ID2 s).
Proof.
  intros Hunset Hne.
  assert (Hvalid : hasValidSectionID (set_SectionID ID1 s) = true).
  { rewrite hasValidSectionID_set_SectionID. apply negb_true_iff.
    apply String.eqb_neq. exact Hne. }
  assert (Hseq : (bind (setSectionID ID1) (fun _ => setSectionID ID2)) s
     = (AssertionFailure "trying to set section id twice", set_SectionID ID1 s)).
  { unfold bind at 1. rewrite (setSectionID_unset s ID1 Hunset).
    apply setSectionID_set, Hvalid. }
  split; [|split; [|split; [|split]]].
  - intros s0 ID. destruct (hasValidSectionID s0) eqn:E.
    + rewrite (setSectionID_set s0 ID E). reflexivity.
    + rewrite (setSectionID_unset s0 ID E). reflexivity.
  - apply setSectionID_unset, Hunset.
  - exact Hseq.
  - rewrite Hseq. reflexivity.
  - unfold bind at 1. rewrite (setSectionID_unset s EmptyString Hunset).
    rewrite setSectionID_unset by reflexivity. reflexivity.
Qed.

Lemma setSectionID_at_most_once_witness :
  hasValidSectionID data16 = false
  /\ (bind (setSectionID ".data.1") (fun _ => setSectionID ".data.2")) data16
     = (AssertionFailure "trying to set section id twice",
        set_SectionID ".data.1" data16).
Proof.
  split; [reflexivity|].
  destruct (setSectionID_at_most_once data16 ".data.1" ".data.2" eq_refl)
    as (_ & _ & Hseq & _); [discriminate|exact Hseq].
Defined.

(** C8, the claim as stated fails: after a first call with the empty id,
    which returns, a second call returns too and assigns its id. *)
Lemma setSectionID_twice_after_empty_id :
  setSectionID EmptyString data16 = (Done tt, data16)
  /\ (bind (setSectionID EmptyString) (fun _ => setSectionID ".data.2")) data16
     = (Done tt, set_SectionID ".data.2" data16).
Proof. split; reflexivity. Qed.

(** ** Equality *)

(** C10: [operator==] holds exactly when the two sections have the same
    name, input address, input size, input-contents data pointer, alignment,
    ELF type and ELF flags; no other member takes part, so output contents,
    output size, the finalization flag, the relocation stores, the patches
    and the layout assignments never change the answer. *)
Theorem operator_eq_compares_identity this Other :
  (operator_eq this Other = true <->
     Name this = Name Other /\ Address this = Address Other
     /\ Size this = Size Other /\ getData this = getData Other
     /\ Alignment this = Alignment Other /\ ELFType this = ELFType Other
     /\ ELFFlags this = ELFFlags Other)
  /\ (forall o1 o2,
        operator_eq (replace_uncompared o1 this) (replace_uncompared o2 Other)
        = operator_eq this Other)
  /\ operator_ne this Other = negb (operator_eq this Other).
Proof.
  split; [|split].
  - unfold operator_eq.
    rewrite !andb_true_iff, String.eqb_eq, !Z.eqb_eq. tauto.
  - intros o1 o2. reflexivity.
  - reflexivity.
Qed.

(** Pointer identity, not the bytes: the note section and a copy of it
    whose input contents sit in another buffer with the same three bytes
    are not equal. *)
Example operator_eq_same_bytes_other_buffer :
  let other := set_Contents (mkStringRef 8192 3) note3 in
  let m : Memory := fun _ => Byte.x00 in
  view_bytes m (getContents note3) = view_bytes m (getContents other)
  /\ operator_eq note3 other = false
  /\ operator_eq note3 (set_Contents (mkStringRef 4096 0) note3) = true.
Proof. repeat split. Qed.

(** ** Relocation stores: bounds *)

Lemma addRelocation_checked s Offset0 Symbol0 Type0 Addend0 Value0 :
  addRelocation Offset0 Symbol0 Type0 Addend0 Value0 s =
  if Offset0 <? getSize s
  then (Done tt,
        set_Relocations
          (Multiset.emplace (mkRelocation Offset0 Symbol0 Type0 Addend0 Value0)
             (Relocations s)) s)
  else (AssertionFailure "offset not within section bounds", s).
Proof.
  unfold addRelocation, bind, get, assert, modify.
  destruct (Offset0 <? getSize s); reflexivity.
Qed.

Lemma addDynamicRelocation_checked s Reloc :
  addDynamicRelocation Reloc s =
  if Offset Reloc <? getSize s
  then (Done tt,
        set_DynamicRelocations (Multiset.emplace Reloc (DynamicRelocations s)) s)
  else (AssertionFailure "offset not within section bounds", s).
Proof.
  unfold addDynamicRelocation, bind, get, assert, modify.
  destruct (Offset Reloc <? getSize s); reflexivity.
Qed.

Lemma addPendingRelocation_unchecked s Rel :
  addPendingRelocation Rel s =
  (Done tt, set_PendingRelocations (PendingRelocations s ++ [Rel]) s).
Proof. reflexivity. Qed.

(** C2, the code at an offset equal to the section size: the static and the
    dynamic store refuse the relocation with an assertion failure; the
    pending store takes it, and then holds a relocation whose offset is not
    below the size of the section. *)
Theorem addPendingRelocation_out_of_bounds :
  let Rel := mkRelocation 16 0 1 0 0 in
  getSize data16 = 16
  /\ addRelocation 16 0 1 0 0 data16
     = (AssertionFailure "offset not within section bounds", data16)
  /\ addDynamicRelocation Rel data16
     = (AssertionFailure "offset not within section bounds", data16)
  /\ result_of (addPendingRelocation Rel data16) = Done tt
  /\ PendingRelocations (state_of (addPendingRelocation Rel data16)) = [Rel]
  /\ (Offset Rel <? getSize (state_of (addPendingRelocation Rel data16))) = false.
Proof. repeat split. Qed.

(** ** Construction *)

Lemma increment_Count_eq g :
  increment_Count g = (Done (Int.add64 (Count g) 1), set_Count (Int.add64 (Count g) 1) g).
Proof. reflexivity. Qed.

Lemma read_bytes_length m p n : 0 <= n -> Z.of_nat (length (read_bytes m p n)) = n.
Proof.
  intros Hn. unfold read_bytes. rewrite length_map, length_seq. lia.
Qed.

(** C3 (as amended): the synthetic constructor, given an alignment above
    zero, returns a section that is finalized, whose output size is the size
    supplied, which has no section reference, and whose input contents and
    output contents are one and the same view: the supplied pointer with the
    supplied size (with length zero under a null pointer).  Both views read
    back the bytes supplied. *)
Theorem synthetic_section_is_finalized
    (ctx : BinaryContext) (name : string) (Data0 : ptr)
    (Size0 Alignment0 ELFType0 ELFFlags0 : Z) (g : Globals) :
  0 < Alignment0 ->
  exists s,
    BinarySection_synthetic ctx name Data0 Size0 Alignment0 ELFType0 ELFFlags0 g
    = (Done s, set_Count (Int.add64 (Count g) 1) g)
    /\ isFinalized s = true
    /\ getOutputSize s = Size0
    /\ hasSectionRef s = false
    /\ getContents s = mkStringRef Data0 (if is_null Data0 then 0 else Size0)
    /\ getOutputContents s = getContents s
    /\ (forall (m : Memory) (B : list Byte.byte),
          is_null Data0 = false ->
          read_bytes m Data0 Size0 = B ->
          view_bytes m (getOutputContents s) = B
          /\ view_bytes m (getContents s) = B).
Proof.
  intros Halign. eexists. split.
  - unfold BinarySection_synthetic, bind. rewrite increment_Count_eq.
    unfold assert. replace (0 <? Alignment0) with true
      by (symmetry; apply Z.ltb_lt; exact Halign).
    reflexivity.
  - cbn [isFinalized getOutputSize hasSectionRef getContents getOutputContents
         IsFinalized OutputSize Section Contents OutputContents].
    repeat (split; [reflexivity|]).
    intros m B Hnn HB. unfold view_bytes. cbn [Data Length]. rewrite Hnn.
    split; exact HB.
Qed.

Lemma synthetic_section_is_finalized_witness :
  exists s,
    BinarySection_synthetic ELF_context ".note" 4096 3 1 7 0 (mkGlobals 0 [])
    = (Done s, mkGlobals 1 [])
    /\ isFinalized s = true /\ getOutputSize s = 3.
Proof.
  destruct (synthetic_section_is_finalized ELF_context ".note" 4096 3 1 7 0
              (mkGlobals 0 []) ltac:(lia)) as (s & Hs & Hf & Hsz & _).
  exists s. split; [exact Hs|]. split; [exact Hf | exact Hsz].
Defined.

(** C3, the claim as stated fails: a synthetic section built from three
    bytes at a non-null address has input contents of length three. *)
Lemma synthetic_section_input_contents_not_empty :
  exists s,
    BinarySection_synthetic ELF_context ".note" 4096 3 1 7 0 (mkGlobals 0 [])
    = (Done s, mkGlobals 1 [])
    /\ getContents s = mkStringRef 4096 3
    /\ StringRef_is_empty (getContents s) = false.
Proof. eexists. repeat split. Qed.

(** ** Output contents *)

Section Output.

Context {elf : ELFConstants}.

Lemma getContentsOrQuit_available (S : Type) r :
  contents_available r = true ->
  exists c, forall st : S, getContentsOrQuit r st = (Done c, st).
Proof.
  unfold contents_available, getContentsOrQuit. intros H.
  destruct (ref_objectIsELF r && (ref_ELFType r =? SHT_NOBITS)).
  - exists StringRef_empty. reflexivity.
  - destruct (ref_Contents r) as [c|]; [|discriminate]. exists c. reflexivity.
Qed.

Lemma updateContents_returns g s NewData NewSize :
  can_reread s = true ->
  exists g',
    updateContents NewData NewSize (g, s)
    = (Done tt,
       (g', set_IsFinalized true
              (set_OutputSize NewSize
                 (set_OutputContents
                    (mkStringRef NewData (if is_null NewData then 0 else NewSize)) s))))
    /\ Count g' = Count g.
Proof.
  intros Hre. unfold updateContents, bind, gets. cbn [snd].
  destruct (negb (is_null (getOutputData s)) && negb (hasValidSectionID s)).
  - unfold can_reread, hasSectionRef, getSectionRef in *.
    destruct (Section s) as [r|] eqn:Hsec; cbn [negb].
    + destruct (getContentsOrQuit_available (Globals * BinarySection) r Hre)
        as [c Hc].
      rewrite Hc. unfold ret.
      destruct (negb (Data (OutputContents s) =? Data c)).
      * eexists. split; [reflexivity|]. reflexivity.
      * eexists. split; [reflexivity|]. reflexivity.
    + unfold ret. eexists. split; [reflexivity|]. reflexivity.
  - unfold ret. eexists. split; [reflexivity|]. reflexivity.
Qed.

Lemma addPadding_eq s p :
  addPadding p s = (Done tt, set_OutputSize (Int.add64 (OutputSize s) p) s).
Proof. reflexivity. Qed.

Lemma set_OutputSize_twice v w s :
  set_OutputSize v (set_OutputSize w s) = set_OutputSize v s.
Proof. reflexivity. Qed.

Lemma addPaddings_eq ps : forall s,
  addPaddings ps s
  = (Done tt, set_OutputSize (match ps with
                              | [] => OutputSize s
                              | _ :: _ => Int.wrap64 (OutputSize s + total ps)
                              end) s).
Proof.
  induction ps as [|p ps IH]; intros s.
  - destruct s; reflexivity.
  - cbn [addPaddings]. unfold bind. rewrite addPadding_eq, IH.
    rewrite set_OutputSize_twice. do 2 f_equal.
    change (OutputSize (set_OutputSize (Int.add64 (OutputSize s) p) s))
      with (Int.add64 (OutputSize s) p).
    destruct ps as [|q ps].
    + cbn [total fold_right]. unfold Int.add64. f_equal. lia.
    + unfold Int.add64, Int.wrap64. cbn [total fold_right].
      rewrite Zplus_mod_idemp_l. f_equal. lia.
Qed.

(** C6 (as amended): [updateContents(bytes, n)] on a section whose input
    contents can be read returns with output size [n], the finalized flag
    set and the view [(bytes, n)] as output contents, of length 0 when
    [bytes] is null.  [addPadding(p)] then adds [p] to the output size in
    64-bit arithmetic and leaves the output contents as they are.  After any
    number of paddings whose total fits, the output size is [n] plus the
    total padding, which is the length of the output contents plus the
    total padding when [bytes] is not null or [n] is zero. *)
Theorem updateContents_then_addPadding g s NewData NewSize ps :
  can_reread s = true ->
  exists g' s1,
    updateContents NewData NewSize (g, s) = (Done tt, (g', s1))
    /\ getOutputSize s1 = NewSize
    /\ isFinalized s1 = true
    /\ getOutputContents s1
       = mkStringRef NewData (if is_null NewData then 0 else NewSize)
    /\ (forall p,
          exists s2, addPadding p s1 = (Done tt, s2)
            /\ getOutputSize s2 = Int.add64 (getOutputSize s1) p
            /\ (0 <= NewSize -> 0 <= p -> NewSize + p < Int.modulus64 ->
                getOutputSize s2 = getOutputSize s1 + p)
            /\ getOutputContents s2 = getOutputContents s1
            /\ isFinalized s2 = true)
    /\ exists s3, addPaddings ps s1 = (Done tt, s3)
         /\ getOutputContents s3 = getOutputContents s1
         /\ isFinalized s3 = true
         /\ (0 <= NewSize -> Forall (Z.le 0) ps ->
             NewSize + total ps < Int.modulus64 ->
             getOutputSize s3 = NewSize + total ps
             /\ (is_null NewData = false \/ NewSize = 0 ->
                 getOutputSize s3 = Length (getOutputContents s3) + total ps)).
Proof.
  intros Hre.
  destruct (updateContents_returns g s NewData NewSize Hre) as (g' & Hup & _).
  eexists g', _. split; [exact Hup|].
  split; [reflexivity|]. split; [reflexivity|]. split; [reflexivity|].
  split.
  - intros p. eexists. split; [apply addPadding_eq|].
    split; [reflexivity|]. split; [|split; reflexivity].
    intros Hn Hp Hfit. cbn. apply add64_exact; assumption.
  - eexists. split; [apply addPaddings_eq|].
    split; [reflexivity|]. split; [reflexivity|].
    intros Hn Hps Hfit.
    assert (Htot : 0 <= total ps).
    { clear Hfit. unfold total.
      induction Hps as [|p ps' Hp _ IH]; cbn [fold_right]; lia. }
    assert (Hsize : match ps with
                    | [] => NewSize
                    | _ :: _ => Int.wrap64 (NewSize + total ps)
                    end = NewSize + total ps).
    { destruct ps as [|p ps'].
      - cbn. lia.
      - apply wrap64_small. unfold Int.in_u64. lia. }
    split.
    + cbn. exact Hsize.
    + intros Hview. cbn. rewrite Hsize.
      destruct Hview as [Hnn | Hz].
      * rewrite Hnn. reflexivity.
      * rewrite Hz. destruct (is_null NewData); reflexivity.
Qed.

End Output.

Lemma updateContents_then_addPadding_witness :
  exists g' s1,
    @updateContents gABI 4096 16 (mkGlobals 3 [], data16) = (Done tt, (g', s1))
    /\ getOutputSize s1 = 16
    /\ isFinalized s1 = true
    /\ getOutputSize (state_of (addPadding 4 s1)) = 20.
Proof.
  destruct (@updateContents_then_addPadding gABI (mkGlobals 3 []) data16 4096 16 [4]
              eq_refl) as (g' & s1 & Hup & Hsz & Hfin & Hview & Hpad & _).
  exists g', s1. split; [exact Hup|]. split; [exact Hsz|]. split; [exact Hfin|].
  destruct (Hpad 4) as (s2 & Hs2 & _ & Hexact & _).
  rewrite Hs2. cbn [state_of snd]. rewrite Hexact, Hsz.
  - reflexivity.
  - lia.
  - lia.
  - rewrite modulus64_eq. lia.
Defined.

(** C6, the claim as stated fails: after [updateContents(nullptr, 5)] and no
    padding at all, the output size is 5 and the output contents have
    length 0. *)
Lemma updateContents_null_data_size :
  exists g' s1,
    @updateContents gABI nullptr 5 (mkGlobals 3 [], data16) = (Done tt, (g', s1))
    /\ getOutputSize s1 = 5
    /\ Length (getOutputContents s1) = 0
    /\ getOutputSize s1 <> Length (getOutputContents s1) + total [].
Proof.
  eexists _, _. split; [reflexivity|]. cbn. repeat split. discriminate.
Qed.

(** ** The relocation multiset *)

Module MultisetFacts.

Import Multiset.

Lemma comparisons_agree a b :
  Relocation_lt a b = Relocation_lt_key a (Offset b)
  /\ Relocation_lt a b = key_lt_Relocation (Offset a) b.
Proof. split; reflexivity. Qed.

Lemma ordered_nil : ordered [].
Proof. constructor. Qed.

Lemma ordered_cons_inv r s :
  ordered (r :: s) -> ordered s /\ Forall (fun x => Offset r <= Offset x) s.
Proof. intros H. inversion H; subst. split; assumption. Qed.

Lemma erase_end (s : t) : delete (length s) s = s.
Proof.
  induction s as [|r s IH]; [reflexivity|]. cbn [length delete list_delete].
  f_equal. exact IH.
Qed.

Lemma find_cons k r s :
  find k (r :: s) =
  if Offset r <? k then S (find k s)
  else if k <? Offset r then S (length s) else 0%nat.
Proof.
  unfold find, end_. cbn [lower_bound]. unfold Relocation_lt_key.
  destruct (Offset r <? k) eqn:Hlt.
  - change ((r :: s) !! S (lower_bound k s)) with (s !! lower_bound k s).
    destruct (s !! lower_bound k s) as [x|]; [|reflexivity].
    destruct (key_lt_Relocation k x); reflexivity.
  - cbn [lookup list_lookup]. unfold key_lt_Relocation.
    destruct (k <? Offset r); reflexivity.
Qed.

Lemma find_le_end k s : (find k s <= end_ s)%nat.
Proof.
  unfold end_. induction s as [|r s IH].
  - cbn. lia.
  - rewrite find_cons. cbn [length].
    destruct (Offset r <? k); [lia|]. destruct (k <? Offset r); lia.
Qed.

Lemma filter_above k r s :
  k < Offset r -> Forall (fun x => Offset r <= Offset x) s ->
  filter (fun x => Offset x = k) s = [].
Proof.
  intros Hk Hall. induction Hall as [|x s Hx _ IH].
  - reflexivity.
  - rewrite filter_cons_False by lia. exact IH.
Qed.

Lemma remove_first_above k r s :
  k < Offset r -> Forall (fun x => Offset r <= Offset x) s ->
  remove_first k s = s.
Proof.
  intros Hk Hall. induction Hall as [|x s Hx _ IH].
  - reflexivity.
  - cbn [remove_first]. destruct (Offset x =? k) eqn:E.
    + apply Z.eqb_eq in E. lia.
    + rewrite IH. reflexivity.
Qed.

(** On an ordered store, [find] designates the first element with the
    offset looked up, or [end()] when there is none. *)
Lemma find_first_at k s :
  ordered s ->
  (if (find k s =? end_ s)%nat then None else deref s (find k s)) = first_at k s.
Proof.
  unfold first_at, deref, end_. induction s as [|r s IH]; intros Hord.
  - reflexivity.
  - apply ordered_cons_inv in Hord as [Hord Hall].
    rewrite find_cons. cbn [length].
    destruct (Offset r <? k) eqn:Hlt.
    + apply Z.ltb_lt in Hlt. rewrite filter_cons_False by lia.
      rewrite <- (IH Hord). reflexivity.
    + apply Z.ltb_ge in Hlt. destruct (k <? Offset r) eqn:Hgt.
      * apply Z.ltb_lt in Hgt. rewrite Nat.eqb_refl.
        rewrite filter_cons_False by lia.
        rewrite (filter_above k r s Hgt Hall). reflexivity.
      * apply Z.ltb_ge in Hgt. rewrite filter_cons_True by lia. reflexivity.
Qed.

(** On an ordered store, erasing at [find] removes that first element. *)
Lemma erase_find k s :
  ordered s -> erase (find k s) s = remove_first k s.
Proof.
  unfold erase. induction s as [|r s IH]; intros Hord.
  - reflexivity.
  - apply ordered_cons_inv in Hord as [Hord Hall].
    rewrite find_cons. cbn [remove_first].
    destruct (Offset r <? k) eqn:Hlt.
    + apply Z.ltb_lt in Hlt. replace (Offset r =? k) with false
        by (symmetry; apply Z.eqb_neq; lia).
      cbn [delete list_delete]. change (delete (find k s) s) with (delete (find k s) s).
      f_equal. apply IH, Hord.
    + apply Z.ltb_ge in Hlt. destruct (k <? Offset r) eqn:Hgt.
      * apply Z.ltb_lt in Hgt. replace (Offset r =? k) with false
          by (symmetry; apply Z.eqb_neq; lia).
        rewrite (remove_first_above k r s Hgt Hall).
        cbn [delete list_delete]. f_equal.
        apply erase_end.
      * apply Z.ltb_ge in Hgt. replace (Offset r =? k) with true
          by (symmetry; apply Z.eqb_eq; lia).
        reflexivity.
Qed.

Lemma filter_remove_first_same k s :
  filter (fun r => Offset r = k) (remove_first k s)
  = tail (filter (fun r => Offset r = k) s).
Proof.
  induction s as [|r s IH].
  - reflexivity.
  - cbn [remove_first]. destruct (Offset r =? k) eqn:E.
    + apply Z.eqb_eq in E. rewrite (filter_cons_True _ r s) by exact E. reflexivity.
    + apply Z.eqb_neq in E. rewrite !filter_cons_False by exact E. exact IH.
Qed.

Lemma filter_remove_first_other k k' s :
  k' <> k ->
  filter (fun r => Offset r = k') (remove_first k s)
  = filter (fun r => Offset r = k') s.
Proof.
  intros Hne. induction s as [|r s IH].
  - reflexivity.
  - cbn [remove_first]. destruct (Offset r =? k) eqn:E.
    + apply Z.eqb_eq in E. rewrite (filter_cons_False _ r s) by lia. reflexivity.
    + rewrite !filter_cons, IH. reflexivity.
Qed.

Lemma Forall_remove_first (P : Relocation -> Prop) k s :
  Forall P s -> Forall P (remove_first k s).
Proof.
  induction 1 as [|r s Hr Hs IH].
  - constructor.
  - cbn [remove_first]. destruct (Offset r =? k); [assumption|].
    constructor; assumption.
Qed.

Lemma ordered_remove_first k s : ordered s -> ordered (remove_first k s).
Proof.
  induction s as [|r s IH]; intros Hord.
  - exact Hord.
  - apply ordered_cons_inv in Hord as [Hord Hall]. cbn [remove_first].
    destruct (Offset r =? k); [exact Hord|].
    constructor; [apply IH, Hord | apply Forall_remove_first, Hall].
Qed.

Lemma emplace_cons r x s :
  emplace r (x :: s) =
  if Offset r <? Offset x then r :: x :: s else x :: emplace r s.
Proof.
  unfold emplace. cbn [upper_bound]. unfold key_lt_Relocation.
  destruct (Offset r <? Offset x); reflexivity.
Qed.

Lemma Forall_emplace (P : Relocation -> Prop) r s :
  P r -> Forall P s -> Forall P (emplace r s).
Proof.
  intros Hr. induction 1 as [|x s Hx Hs IH].
  - repeat constructor. exact Hr.
  - rewrite emplace_cons. destruct (Offset r <? Offset x).
    + repeat constructor; assumption.
    + constructor; assumption.
Qed.

Lemma ordered_emplace r s : ordered s -> ordered (emplace r s).
Proof.
  induction s as [|x s IH]; intros Hord.
  - repeat constructor.
  - rewrite emplace_cons. destruct (Offset r <? Offset x) eqn:Hlt.
    + apply Z.ltb_lt in Hlt. constructor; [exact Hord|].
      apply ordered_cons_inv in Hord as [_ Hall].
      constructor; [lia|].
      eapply Forall_impl; [exact Hall|]. cbn. intros; lia.
    + apply Z.ltb_ge in Hlt.
      apply ordered_cons_inv in Hord as [Hord Hall].
      constructor; [apply IH, Hord|].
      apply Forall_emplace; assumption.
Qed.

Lemma count_emplace k r s :
  count k (emplace r s) = (if decide (Offset r = k) then S (count k s) else count k s).
Proof.
  unfold count, emplace.
  set (i := upper_bound (Offset r) s).
  assert (Hs : filter (fun x => Offset x = k) s
               = filter (fun x => Offset x = k) (take i s)
                 ++ filter (fun x => Offset x = k) (drop i s)).
  { rewrite <- filter_app, take_drop. reflexivity. }
  rewrite Hs, filter_app, filter_cons, !length_app.
  destruct (decide (Offset r = k)); cbn [length]; lia.
Qed.

Lemma upper_bound_cons k r s :
  upper_bound k (r :: s) = if k <? Offset r then 0%nat else S (upper_bound k s).
Proof. reflexivity. Qed.

Lemma filter_other_above k r s :
  k < Offset r -> Forall (fun x => Offset r <= Offset x) s ->
  filter (fun x => Offset x <> k) s = s.
Proof.
  intros Hk Hall. induction Hall as [|x s Hx _ IH].
  - reflexivity.
  - rewrite filter_cons_True by lia. rewrite IH. reflexivity.
Qed.

(** Past the upper bound of [k], an ordered store whose elements are not
    below [k] holds the elements with another offset. *)
Lemma drop_upper_bound k s :
  ordered s -> Forall (fun x => k <= Offset x) s ->
  drop (upper_bound k s) s = filter (fun x => Offset x <> k) s.
Proof.
  induction s as [|r s IH]; intros Hord Hall.
  - reflexivity.
  - apply ordered_cons_inv in Hord as [Hord Hr].
    apply Forall_cons in Hall as [Hkr Hall].
    rewrite upper_bound_cons. destruct (k <? Offset r) eqn:Hlt.
    + apply Z.ltb_lt in Hlt. cbn [drop].
      rewrite filter_cons_True by lia.
      rewrite (filter_other_above k r s Hlt Hr). reflexivity.
    + apply Z.ltb_ge in Hlt. cbn [drop].
      rewrite filter_cons_False by lia. apply IH; assumption.
Qed.

(** On an ordered store, erasing from [find] to the upper bound removes
    every element with the offset and no other. *)
Lemma erase_range_find k s :
  ordered s -> find k s <> end_ s ->
  erase_range (find k s) (upper_bound k s) s
  = filter (fun x => Offset x <> k) s.
Proof.
  unfold erase_range, end_. induction s as [|r s IH]; intros Hord Hfound.
  - contradiction.
  - apply ordered_cons_inv in Hord as [Hord Hr].
    rewrite find_cons in *. rewrite upper_bound_cons. cbn [length] in Hfound.
    destruct (Offset r <? k) eqn:Hlt.
    + apply Z.ltb_lt in Hlt.
      replace (k <? Offset r) with false by (symmetry; apply Z.ltb_ge; lia).
      cbn [take drop app]. rewrite filter_cons_True by lia.
      f_equal. apply IH; [exact Hord | lia].
    + apply Z.ltb_ge in Hlt. destruct (k <? Offset r) eqn:Hgt; [contradiction|].
      apply Z.ltb_ge in Hgt. cbn [take drop app].
      rewrite filter_cons_False by lia.
      apply drop_upper_bound; [exact Hord|].
      eapply Forall_impl; [exact Hr|]. cbn. intros; lia.
Qed.

Lemma Forall_kept (Q P : Relocation -> Prop) `{forall x, Decision (P x)} s :
  Forall Q s -> Forall Q (filter P s).
Proof.
  induction 1 as [|x s Hx Hs IH].
  - constructor.
  - rewrite filter_cons. destruct (decide (P x)); [constructor|]; assumption.
Qed.

Lemma ordered_filter (P : Relocation -> Prop) `{forall x, Decision (P x)} s :
  ordered s -> ordered (filter P s).
Proof.
  induction s as [|r s IH]; intros Hord.
  - exact Hord.
  - apply ordered_cons_inv in Hord as [Hord Hr]. rewrite filter_cons.
    destruct (decide (P r)); [|apply IH, Hord].
    constructor; [apply IH, Hord|]. apply Forall_kept, Hr.
Qed.

Lemma find_end_count k s :
  ordered s -> (find k s = end_ s <-> count k s = 0%nat).
Proof.
  intros Hord. pose proof (find_first_at k s Hord) as H.
  pose proof (find_le_end k s) as Hle. unfold first_at, count, deref, end_ in *.
  destruct (find k s =? length s)%nat eqn:E.
  - apply Nat.eqb_eq in E. split; [intros _|intros _; exact E].
    destruct (filter (fun r => Offset r = k) s); [reflexivity|discriminate].
  - apply Nat.eqb_neq in E. split; [contradiction|]. intros Hc.
    destruct (lookup_lt_is_Some_2 s (find k s)) as [r Hr]; [lia|].
    rewrite Hr in H.
    destruct (filter (fun r => Offset r = k) s); discriminate.
Qed.

End MultisetFacts.

(** ** The dynamic relocation store *)

Section DynamicStore.

Import Multiset MultisetFacts.

Lemma getDynamicRelocationAt_first s k :
  ordered (DynamicRelocations s) ->
  getDynamicRelocationAt s k = first_at k (DynamicRelocations s).
Proof.
  intros Hord. rewrite <- (find_first_at k _ Hord).
  unfold getDynamicRelocationAt. cbn [Offset].
  destruct (find k (DynamicRelocations s) =? end_ (DynamicRelocations s))%nat;
    reflexivity.
Qed.

Lemma takeDynamicRelocationAt_eq s k :
  ordered (DynamicRelocations s) ->
  takeDynamicRelocationAt k s =
  match first_at k (DynamicRelocations s) with
  | None => (Done None, s)
  | Some r =>
      (Done (Some r),
       set_DynamicRelocations (remove_first k (DynamicRelocations s)) s)
  end.
Proof.
  intros Hord. pose proof (find_first_at k _ Hord) as Hfind.
  pose proof (find_le_end k (DynamicRelocations s)) as Hle.
  unfold takeDynamicRelocationAt, bind, get, modify, ret. cbn [Offset].
  destruct (find k (DynamicRelocations s) =? end_ (DynamicRelocations s))%nat eqn:E.
  - rewrite <- Hfind. reflexivity.
  - apply Nat.eqb_neq in E. rewrite <- Hfind, (erase_find k _ Hord).
    unfold deref, end_ in *.
    destruct (lookup_lt_is_Some_2 (DynamicRelocations s)
                (find k (DynamicRelocations s))) as [r Hr]; [lia|].
    rewrite Hr. reflexivity.
Qed.

Lemma first_at_offset k s r : first_at k s = Some r -> Offset r = k.
Proof.
  unfold first_at. intros H. apply head_Some_elem_of in H.
  apply list_elem_of_filter in H. tauto.
Qed.

(** C5 (as amended): on an ordered dynamic store, [takeDynamicRelocationAt]
    returns what [getDynamicRelocationAt] finds: the first record at the
    offset, or none, and then the section is unchanged.  When it returns a
    record it removes that one record and no other: the number of records
    at the offset drops by one, the records at other offsets stay, and a
    subsequent [getDynamicRelocationAt] returns none exactly when the
    record taken was the only one at the offset; otherwise it returns the
    next record at that offset. *)
Theorem takeDynamicRelocationAt_removes_one s k :
  ordered (DynamicRelocations s) ->
  exists s',
    takeDynamicRelocationAt k s = (Done (getDynamicRelocationAt s k), s')
    /\ getDynamicRelocationAt s k = first_at k (DynamicRelocations s)
    /\ (getDynamicRelocationAt s k = None -> s' = s)
    /\ (forall r, getDynamicRelocationAt s k = Some r ->
          Offset r = k
          /\ s' = set_DynamicRelocations (remove_first k (DynamicRelocations s)) s
          /\ S (count k (DynamicRelocations s')) = count k (DynamicRelocations s)
          /\ (forall k', k' <> k ->
                filter (fun x => Offset x = k') (DynamicRelocations s')
                = filter (fun x => Offset x = k') (DynamicRelocations s))
          /\ getDynamicRelocationAt s' k
             = head (tail (filter (fun x => Offset x = k) (DynamicRelocations s)))
          /\ (getDynamicRelocationAt s' k = None
              <-> count k (DynamicRelocations s) = 1%nat))
    /\ ordered (DynamicRelocations s').
Proof.
  intros Hord.
  rewrite (takeDynamicRelocationAt_eq s k Hord),
          (getDynamicRelocationAt_first s k Hord).
  destruct (first_at k (DynamicRelocations s)) as [r|] eqn:Hfirst.
  - eexists. split; [reflexivity|]. split; [reflexivity|].
    split; [discriminate|].
    assert (Hord' : ordered (remove_first k (DynamicRelocations s)))
      by apply ordered_remove_first, Hord.
    split; [|exact Hord'].
    intros r' Hr'. injection Hr' as <-.
    assert (Hnext : getDynamicRelocationAt
                      (set_DynamicRelocations
                         (remove_first k (DynamicRelocations s)) s) k
                    = head (tail (filter (fun x => Offset x = k)
                                    (DynamicRelocations s)))).
    { rewrite getDynamicRelocationAt_first by exact Hord'.
      cbn [DynamicRelocations set_DynamicRelocations]. unfold first_at.
      rewrite filter_remove_first_same. reflexivity. }
    split; [exact (first_at_offset k _ r Hfirst)|].
    split; [reflexivity|].
    cbn [DynamicRelocations set_DynamicRelocations] in *.
    unfold first_at, count in *.
    split; [|split; [|split]].
    + rewrite filter_remove_first_same.
      destruct (filter (fun x => Offset x = k) (DynamicRelocations s));
        [discriminate|reflexivity].
    + intros k' Hk'. apply filter_remove_first_other, Hk'.
    + exact Hnext.
    + rewrite Hnext.
      destruct (filter (fun x => Offset x = k) (DynamicRelocations s))
        as [|x [|y l]]; cbn; split; intros; try discriminate; reflexivity.
  - exists s. split; [reflexivity|]. split; [reflexivity|].
    split; [reflexivity|]. split; [discriminate|exact Hord].
Qed.

End DynamicStore.

Lemma takeDynamicRelocationAt_removes_one_witness :
  Multiset.ordered (DynamicRelocations two_at_4)
  /\ exists s',
       takeDynamicRelocationAt 4 two_at_4 = (Done (Some reloc_a), s')
       /\ Multiset.ordered (DynamicRelocations s').
Proof.
  assert (Hord : Multiset.ordered (DynamicRelocations two_at_4)).
  { repeat constructor; cbn; lia. }
  split; [exact Hord|].
  destruct (takeDynamicRelocationAt_removes_one two_at_4 4 Hord)
    as (s' & Htake & _ & _ & _ & Hord').
  exists s'. split; [exact Htake | exact Hord'].
Defined.

(** C5, the claim as stated fails: with two records at offset 4, the take
    returns the first and a subsequent lookup at offset 4 still finds the
    second. *)
Lemma takeDynamicRelocationAt_leaves_duplicate :
  result_of (addDynamicRelocation reloc_a data16) = Done tt
  /\ result_of (addDynamicRelocation reloc_b
                  (state_of (addDynamicRelocation reloc_a data16))) = Done tt
  /\ DynamicRelocations two_at_4 = [reloc_a; reloc_b]
  /\ result_of (takeDynamicRelocationAt 4 two_at_4) = Done (Some reloc_a)
  /\ getDynamicRelocationAt (state_of (takeDynamicRelocationAt 4 two_at_4)) 4
     = Some reloc_b.
Proof. repeat split. Qed.

(** ** The static relocation store *)

Section StaticStore.

Import Multiset MultisetFacts.

Lemma getRelocationAt_first s k :
  ordered (Relocations s) -> getRelocationAt s k = first_at k (Relocations s).
Proof.
  intros Hord. rewrite <- (find_first_at k _ Hord). unfold getRelocationAt.
  destruct (find k (Relocations s) =? end_ (Relocations s))%nat; reflexivity.
Qed.

Lemma filter_other_none k s :
  count k s = 0%nat -> filter (fun x => Offset x <> k) s = s.
Proof.
  unfold count. induction s as [|r s IH]; [reflexivity|].
  rewrite (filter_cons (fun x => Offset x = k)).
  destruct (decide (Offset r = k)) as [He | Hne]; [discriminate|].
  intros Hc. rewrite filter_cons_True by exact Hne. rewrite IH by exact Hc.
  reflexivity.
Qed.

Lemma filter_same_of_others k (s : list Relocation) :
  filter (fun x => Offset x = k) (filter (fun x => Offset x <> k) s) = [].
Proof.
  induction s as [|r s IH]; [reflexivity|].
  rewrite (filter_cons (fun x => Offset x <> k)).
  destruct (decide (Offset r <> k)) as [Hne | He]; [|exact IH].
  rewrite filter_cons_False by exact Hne. exact IH.
Qed.

Lemma filter_another_of_others k k' (s : list Relocation) :
  k' <> k ->
  filter (fun x => Offset x = k') (filter (fun x => Offset x <> k) s)
  = filter (fun x => Offset x = k') s.
Proof.
  intros Hk. induction s as [|r s IH]; [reflexivity|].
  rewrite (filter_cons (fun x => Offset x <> k)).
  destruct (decide (Offset r <> k)) as [Hne | He].
  - rewrite !filter_cons, IH. reflexivity.
  - rewrite (filter_cons_False (fun x => Offset x = k') r s) by lia. exact IH.
Qed.

(** [removeRelocationAt] on an ordered static store removes every record
    with the offset and none with a different offset, and returns whether
    any existed. *)
Theorem removeRelocationAt_removes_all s k :
  ordered (Relocations s) ->
  exists s',
    removeRelocationAt k s = (Done (negb (count k (Relocations s) =? 0)%nat), s')
    /\ s' = set_Relocations (filter (fun x => Offset x <> k) (Relocations s)) s
    /\ count k (Relocations s') = 0%nat
    /\ (forall k', k' <> k ->
          filter (fun x => Offset x = k') (Relocations s')
          = filter (fun x => Offset x = k') (Relocations s))
    /\ getRelocationAt s' k = None
    /\ ordered (Relocations s').
Proof.
  intros Hord.
  assert (Hord' : ordered (filter (fun x => Offset x <> k) (Relocations s)))
    by apply ordered_filter, Hord.
  exists (set_Relocations (filter (fun x => Offset x <> k) (Relocations s)) s).
  split.
  - unfold removeRelocationAt, bind, get, modify, ret.
    destruct (find k (Relocations s) =? end_ (Relocations s))%nat eqn:E.
    + apply Nat.eqb_eq in E. pose proof E as Hc.
      apply (find_end_count k _ Hord) in Hc. rewrite Hc.
      rewrite (filter_other_none k _ Hc). destruct s; reflexivity.
    + apply Nat.eqb_neq in E. cbn [negb].
      rewrite (erase_range_find k _ Hord E).
      destruct (count k (Relocations s) =? 0)%nat eqn:Hc; [|reflexivity].
      apply Nat.eqb_eq, (find_end_count k _ Hord) in Hc. contradiction.
  - split; [reflexivity|]. cbn [Relocations set_Relocations].
    split; [unfold count; rewrite filter_same_of_others; reflexivity|].
    split; [intros k' Hk'; apply filter_another_of_others, Hk'|].
    split; [|exact Hord'].
    rewrite getRelocationAt_first by exact Hord'.
    cbn [Relocations set_Relocations]. unfold first_at.
    rewrite filter_same_of_others. reflexivity.
Qed.

(** The static and the dynamic store take a relocation exactly when its
    offset is below the size of the section; otherwise the assertion fails
    and the section is as it was.  A relocation taken is one more record at
    its offset, and the stores stay ordered. *)
Theorem checked_insertion_within_bounds s Reloc :
  stores_ordered s ->
  (Offset Reloc < getSize s ->
     exists s1 s2,
       addRelocation (Offset Reloc) (Symbol Reloc) (Type_ Reloc) (Addend Reloc)
         (Value Reloc) s = (Done tt, s1)
       /\ addDynamicRelocation Reloc s = (Done tt, s2)
       /\ count (Offset Reloc) (Relocations s1)
          = S (count (Offset Reloc) (Relocations s))
       /\ count (Offset Reloc) (DynamicRelocations s2)
          = S (count (Offset Reloc) (DynamicRelocations s))
       /\ stores_ordered s1 /\ stores_ordered s2)
  /\ (getSize s <= Offset Reloc ->
        addRelocation (Offset Reloc) (Symbol Reloc) (Type_ Reloc) (Addend Reloc)
          (Value Reloc) s
        = (AssertionFailure "offset not within section bounds", s)
        /\ addDynamicRelocation Reloc s
           = (AssertionFailure "offset not within section bounds", s)).
Proof.
  intros [Hs Hd]. rewrite addRelocation_checked, addDynamicRelocation_checked.
  split.
  - intros Hlt. apply Z.ltb_lt in Hlt. rewrite Hlt.
    eexists _, _. split; [reflexivity|]. split; [reflexivity|].
    cbn [Relocations DynamicRelocations set_Relocations set_DynamicRelocations].
    replace (mkRelocation (Offset Reloc) (Symbol Reloc) (Type_ Reloc)
               (Addend Reloc) (Value Reloc)) with Reloc by (destruct Reloc; reflexivity).
    rewrite !count_emplace. destruct (decide (Offset Reloc = Offset Reloc));
      [|contradiction].
    split; [reflexivity|]. split; [reflexivity|].
    unfold stores_ordered.
    cbn [Relocations DynamicRelocations set_Relocations set_DynamicRelocations].
    split; split; try assumption; apply ordered_emplace; assumption.
  - intros Hge. apply Z.ltb_ge in Hge. rewrite Hge. split; reflexivity.
Qed.

End StaticStore.

Lemma removeRelocationAt_removes_all_witness :
  exists s',
    removeRelocationAt 4
      (state_of (bind (addRelocation 4 0 1 0 0)
                   (fun _ => bind (addRelocation 8 0 1 0 0)
                               (fun _ => addRelocation 4 0 2 0 0)) data16))
    = (Done true, s')
    /\ Relocations s' = [mkRelocation 8 0 1 0 0].
Proof.
  edestruct (removeRelocationAt_removes_all
               (state_of (bind (addRelocation 4 0 1 0 0)
                            (fun _ => bind (addRelocation 8 0 1 0 0)
                                        (fun _ => addRelocation 4 0 2 0 0)) data16))
               4) as (s' & Hrun & Hs' & _).
  - repeat constructor; cbn; lia.
  - exists s'. split; [exact Hrun|]. rewrite Hs'. reflexivity.
Defined.

Lemma checked_insertion_within_bounds_witness :
  stores_ordered data16
  /\ addDynamicRelocation reloc_a data16
     = (Done tt, set_DynamicRelocations [reloc_a] data16).
Proof.
  assert (Hord : stores_ordered data16) by (split; constructor).
  split; [exact Hord|].
  destruct (checked_insertion_within_bounds data16 reloc_a Hord) as [Hin _].
  destruct Hin as (s1 & s2 & _ & Hdyn & _); [cbn; lia|].
  rewrite Hdyn. f_equal.
  rewrite addDynamicRelocation_checked in Hdyn. cbn in Hdyn.
  injection Hdyn as <-. reflexivity.
Defined.

(** ** The ordering of sections *)

Module OrderingFacts.

Import OrderingPolicy.

Lemma lex_refl k : lex k k = Eq.
Proof.
  induction k as [|x k IH]; [reflexivity|]. cbn [lex].
  rewrite Z.compare_refl. exact IH.
Qed.

Lemma lex_antisym k1 : forall k2, lex k2 k1 = CompOpp (lex k1 k2).
Proof.
  induction k1 as [|x k1 IH]; intros [|y k2]; try reflexivity.
  cbn [lex]. rewrite (Z.compare_antisym x y).
  destruct (x ?= y); cbn [CompOpp]; [apply IH|reflexivity|reflexivity].
Qed.

Lemma lex_trans k1 : forall k2 k3,
  lex k1 k2 = Lt -> lex k2 k3 = Lt -> lex k1 k3 = Lt.
Proof.
  induction k1 as [|x k1 IH]; intros [|y k2] [|z k3]; cbn [lex];
    try discriminate; try reflexivity.
  destruct (Z.compare_spec x y) as [-> | Hxy | Hxy]; try discriminate.
  - intros H1.
    destruct (Z.compare_spec y z) as [-> | Hyz | Hyz]; try discriminate.
    + intros H2. exact (IH _ _ H1 H2).
    + reflexivity.
  - intros _.
    destruct (Z.compare_spec y z) as [-> | Hyz | Hyz]; try discriminate;
      intros _;
      replace (x ?= z) with Lt by (symmetry; apply Z.compare_lt_iff; lia);
      reflexivity.
Qed.

Lemma lex_eq k1 : forall k2,
  length k1 = length k2 -> lex k1 k2 = Eq -> k1 = k2.
Proof.
  induction k1 as [|x k1 IH]; intros [|y k2] Hlen; cbn [lex];
    try discriminate; [reflexivity|].
  destruct (Z.compare_spec x y) as [-> | Hxy | Hxy]; try discriminate.
  intros H. f_equal. apply IH; [|exact H]. cbn in Hlen. lia.
Qed.

Section Order.

Context {elf : ELFConstants}.

Lemma first_those_b2z p a b :
  first_those p a b = (Z.b2z (negb (p a)) ?= Z.b2z (negb (p b))).
Proof. unfold first_those. destruct (p a), (p b); reflexivity. Qed.

(** The cascade is the lexicographic comparison of the sort keys. *)
Lemma compare_lex a b : compare a b = lex (key a) (key b).
Proof.
  unfold compare, tie_breaks, key. cbn [cascade lex].
  rewrite !first_those_b2z, !negb_involutive.
  destruct (Z.b2z (negb (isAllocatable a)) ?= Z.b2z (negb (isAllocatable b)));
    try reflexivity.
  unfold among, provided, ascending, addresses_tie_and_nonzero.
  destruct (hasSectionRef a), (hasSectionRef b); cbn [negb Z.b2z andb];
    try reflexivity.
  destruct (Z.compare_spec (getAddress a) (getAddress b)) as [He | Hlt | Hgt];
    try reflexivity.
  rewrite He, Z.eqb_refl. cbn [andb].
  destruct (getAddress b =? 0); reflexivity.
Qed.

Lemma before_lex a b : before a b = true <-> lex (key a) (key b) = Lt.
Proof.
  unfold before. rewrite compare_lex.
  destruct (lex (key a) (key b)); split; intros; try discriminate; reflexivity.
Qed.

Lemma before_false_lex a b : before a b = false <-> lex (key a) (key b) <> Lt.
Proof.
  rewrite <- before_lex. destruct (before a b); split; intros; congruence.
Qed.

Lemma is_Lt_first_those p a b rest :
  is_Lt (match first_those p a b with Eq => rest | r => r end)
  = if bool_ne (p a) (p b) then bool_gt (p a) (p b) else is_Lt rest.
Proof. unfold first_those. destruct (p a), (p b); reflexivity. Qed.

Lemma is_Lt_first_those_not p a b rest :
  is_Lt (match first_those (fun s => negb (p s)) a b with Eq => rest | r => r end)
  = if bool_ne (p a) (p b) then bool_lt (p a) (p b) else is_Lt rest.
Proof. unfold first_those. destruct (p a), (p b); reflexivity. Qed.

Lemma is_Lt_ascending f a b rest :
  is_Lt (match ascending f a b with Eq => rest | r => r end)
  = if negb (f a =? f b) then f a <? f b else is_Lt rest.
Proof.
  unfold ascending. destruct (Z.compare_spec (f a) (f b)) as [H | H | H].
  - rewrite H, Z.eqb_refl. reflexivity.
  - replace (f a =? f b) with false by (symmetry; apply Z.eqb_neq; lia).
    cbn. symmetry. apply Z.ltb_lt. exact H.
  - replace (f a =? f b) with false by (symmetry; apply Z.eqb_neq; lia).
    cbn. symmetry. apply Z.ltb_ge. lia.
Qed.

(** Steps 2 to 4: input-sourced first, then address and size among the
    input-sourced. *)
Lemma is_Lt_input_steps a b rest :
  is_Lt (match first_those hasSectionRef a b with
         | Eq =>
             match among hasSectionRef (ascending getAddress) a b with
             | Eq =>
                 match among hasSectionRef
                         (provided addresses_tie_and_nonzero (ascending getSize))
                         a b with
                 | Eq => rest
                 | r => r
                 end
             | r => r
             end
         | r => r
         end)
  = if bool_ne (hasSectionRef a) (hasSectionRef b)
    then bool_gt (hasSectionRef a) (hasSectionRef b)
    else if hasSectionRef a && negb (getAddress a =? getAddress b)
    then getAddress a <? getAddress b
    else if hasSectionRef a && to_bool (getAddress a)
            && negb (getSize a =? getSize b)
    then getSize a <? getSize b
    else is_Lt rest.
Proof.
  unfold first_those, among, provided, addresses_tie_and_nonzero, to_bool.
  destruct (hasSectionRef a), (hasSectionRef b); try reflexivity.
  cbn [bool_ne bool_gt xorb andb negb].
  fold (is_Lt (match ascending getAddress a b with
               | Eq => match (if (getAddress a =? getAddress b)
                                 && negb (getAddress a =? 0)
                              then ascending getSize a b else Eq) with
                       | Eq => rest
                       | r => r
                       end
               | r => r
               end)).
  rewrite is_Lt_ascending.
  destruct (getAddress a =? getAddress b) eqn:Haddr; [|reflexivity].
  cbn [negb andb]. destruct (getAddress a =? 0); cbn [negb andb].
  - reflexivity.
  - apply is_Lt_ascending.
Qed.

(** [operator<] evaluates the cascade. *)
Lemma operator_lt_before a b : operator_lt a b = before a b.
Proof.
  unfold before, compare, tie_breaks. cbn [cascade].
  rewrite is_Lt_first_those, is_Lt_input_steps, is_Lt_first_those,
    !is_Lt_first_those_not, is_Lt_ascending.
  unfold operator_lt. cbn [is_Lt].
  destruct (negb (SectionNumber a =? SectionNumber b)) eqn:Hn; [reflexivity|].
  apply negb_false_iff, Z.eqb_eq in Hn. rewrite Hn, Z.ltb_irrefl.
  reflexivity.
Qed.

(** The two readings of the cascade agree unless neither section is
    sourced from the input file. *)
Lemma before_as_worded_input a b :
  hasSectionRef a || hasSectionRef b = true ->
  before_as_worded a b = before a b.
Proof.
  intros H.
  unfold before_as_worded, compare_as_worded, tie_breaks_as_worded, before,
    compare, tie_breaks.
  cbn [cascade]. unfold among, first_those.
  destruct (isAllocatable a), (isAllocatable b),
    (hasSectionRef a), (hasSectionRef b);
    try discriminate H; reflexivity.
Qed.

End Order.

End OrderingFacts.

(** ** Creation numbers *)

Module ProcessFacts.

Import Process.

Section Numbering.

Context {elf : ELFConstants}.

Lemma BinarySection_copy_eq ctx name src g :
  exists s,
    BinarySection_copy ctx name src g
    = (Done s, set_Count (Int.add64 (Count g) 1) g)
    /\ SectionNumber s = Int.add64 (Count g) 1
    /\ Section s = None.
Proof. eexists. split; [reflexivity|]. split; reflexivity. Qed.

Lemma BinarySection_synthetic_number ctx name d sz al ty fl g s g' :
  BinarySection_synthetic ctx name d sz al ty fl g = (Done s, g') ->
  SectionNumber s = Int.add64 (Count g) 1
  /\ g' = set_Count (Int.add64 (Count g) 1) g
  /\ Section s = None.
Proof.
  unfold BinarySection_synthetic, bind. rewrite increment_Count_eq.
  unfold assert. destruct (0 <? al); [|discriminate].
  unfold ret. intros H. injection H as <- <-. repeat split.
Qed.

Lemma BinarySection_input_number ctx r ind g s g' :
  BinarySection_input ctx r ind g = (Done s, g') ->
  SectionNumber s = Int.add64 (Count g) 1
  /\ g' = set_Count (Int.add64 (Count g) 1) g
  /\ Section s = Some r
  /\ contents_available r = true.
Proof.
  unfold BinarySection_input, bind, getName_of, cantFail, getContentsOrQuit,
    contents_available.
  destruct (ref_Name r) as [name|]; [|discriminate]. unfold ret at 1.
  destruct (ref_objectIsELF r && (ref_ELFType r =? SHT_NOBITS)).
  - unfold ret at 1. rewrite increment_Count_eq.
    destruct (isELF _); [|destruct (isMachO _)]; unfold ret;
      intros H; injection H as <- <-; repeat split.
  - destruct (ref_Contents r) as [c|]; [|discriminate].
    unfold ret at 1. rewrite increment_Count_eq.
    destruct (isELF _); [|destruct (isMachO _)]; unfold ret;
      intros H; injection H as <- <-; repeat split.
Qed.

Lemma StronglySorted_snoc_lt (l : list Z) (x : Z) :
  StronglySorted Z.lt l -> Forall (fun y => y < x) l ->
  StronglySorted Z.lt (l ++ [x]).
Proof.
  induction 1 as [|y l Hl IH Hy]; intros Hall.
  - repeat constructor.
  - apply Forall_cons in Hall as [Hyx Hall]. cbn. constructor.
    + apply IH, Hall.
    + apply Forall_app. split; [exact Hy|]. repeat constructor. exact Hyx.
Qed.

Lemma StronglySorted_delete_lt (l : list Z) : forall i,
  StronglySorted Z.lt l -> StronglySorted Z.lt (delete i l).
Proof.
  induction l as [|y l IH]; intros i Hs.
  - destruct i; exact Hs.
  - inversion Hs as [|? ? Hl Hy]; subst. destruct i as [|i]; cbn.
    + exact Hl.
    + constructor; [apply IH, Hl | apply Forall_delete, Hy].
Qed.

Lemma StronglySorted_lookup_lt (l : list Z) : forall i j x y,
  StronglySorted Z.lt l -> (i < j)%nat ->
  l !! i = Some x -> l !! j = Some y -> x < y.
Proof.
  induction l as [|z l IH]; intros i j x y Hs Hij Hi Hj.
  - destruct i; discriminate.
  - inversion Hs as [|? ? Hl Hz]; subst. destruct j as [|j]; [lia|].
    destruct i as [|i].
    + cbn in Hi. injection Hi as <-. cbn in Hj.
      rewrite Forall_forall in Hz. apply Hz.
      eapply list_elem_of_lookup_2, Hj.
    + cbn in Hi, Hj. apply (IH i j x y Hl); [lia | exact Hi | exact Hj].
Qed.

(** A constructed section is numbered one above the counter, which
    becomes the new counter. *)
Lemma numbered_construct w s :
  numbered w -> counter_left (globals w) ->
  SectionNumber s = Int.add64 (Count (globals w)) 1 ->
  numbered (mkWorld (set_Count (Int.add64 (Count (globals w)) 1) (globals w))
              (live w ++ [s])).
Proof.
  intros (Hc & Hall & Hsorted) Hleft Hnum. unfold counter_left in Hleft.
  assert (Hadd : Int.add64 (Count (globals w)) 1 = Count (globals w) + 1)
    by (apply add64_exact; lia).
  rewrite Hadd in *. unfold numbered. cbn [globals live Count set_Count].
  split; [lia|]. split.
  - apply Forall_app. split.
    + eapply Forall_impl; [exact Hall|]. cbn. intros; lia.
    + repeat constructor; lia.
  - rewrite fmap_app. cbn [fmap list_fmap]. apply StronglySorted_snoc_lt.
    + exact Hsorted.
    + apply Forall_fmap. eapply Forall_impl; [exact Hall|]. cbn. intros; lia.
Qed.

Lemma step_numbered w w' : numbered w -> step w w' -> numbered w'.
Proof.
  intros Hnum Hstep. destruct Hstep as
    [ ctx r ind s g' Hleft Hctor
    | ctx name d sz al ty fl s g' Hleft Hctor
    | ctx name i src s g' Hleft Hsrc Hctor
    | i s s' g' Hi Hsame Hcount
    | i g' Hcount ].
  - apply BinarySection_input_number in Hctor as (Hn & -> & _).
    apply numbered_construct; assumption.
  - apply BinarySection_synthetic_number in Hctor as (Hn & -> & _).
    apply numbered_construct; assumption.
  - destruct (BinarySection_copy_eq ctx name src (globals w)) as (s0 & H0 & Hn & _).
    rewrite H0 in Hctor. injection Hctor as <- <-.
    apply numbered_construct; assumption.
  - destruct Hnum as (Hc & Hall & Hsorted).
    destruct Hsame as (_ & _ & _ & _ & Hsn).
    unfold numbered. cbn [globals live]. rewrite Hcount.
    split; [exact Hc|]. split.
    + apply Forall_insert; [exact Hall|]. rewrite Hsn.
      rewrite Forall_forall in Hall. apply Hall.
      eapply list_elem_of_lookup_2, Hi.
    + rewrite list_fmap_insert, Hsn. rewrite list_insert_id; [exact Hsorted|].
      rewrite list_lookup_fmap, Hi. reflexivity.
  - destruct Hnum as (Hc & Hall & Hsorted).
    unfold numbered. cbn [globals live]. rewrite Hcount.
    split; [exact Hc|]. split.
    + apply Forall_delete, Hall.
    + rewrite list_fmap_delete. apply StronglySorted_delete_lt, Hsorted.
Qed.

Lemma reachable_numbered w : reachable w -> numbered w.
Proof.
  induction 1 as [|w w' _ IH Hstep].
  - unfold numbered, initial. cbn. split; [rewrite modulus64_eq; lia|].
    split; constructor.
  - eapply step_numbered; eassumption.
Qed.

(** Two live sections at different positions have different creation
    numbers. *)
Lemma numbered_distinct w i j a b :
  numbered w -> i <> j -> live w !! i = Some a -> live w !! j = Some b ->
  SectionNumber a <> SectionNumber b.
Proof.
  intros (_ & _ & Hsorted) Hij Ha Hb.
  assert (Hia : (SectionNumber <$> live w) !! i = Some (SectionNumber a))
    by (rewrite list_lookup_fmap, Ha; reflexivity).
  assert (Hjb : (SectionNumber <$> live w) !! j = Some (SectionNumber b))
    by (rewrite list_lookup_fmap, Hb; reflexivity).
  destruct (Nat.lt_total i j) as [Hlt | [Heq | Hgt]]; [|contradiction|].
  - pose proof (StronglySorted_lookup_lt _ _ _ _ _ Hsorted Hlt Hia Hjb). lia.
  - pose proof (StronglySorted_lookup_lt _ _ _ _ _ Hsorted Hgt Hjb Hia). lia.
Qed.

Lemma numbered_below_counter w i s :
  numbered w -> live w !! i = Some s ->
  0 < SectionNumber s <= Count (globals w).
Proof.
  intros (_ & Hall & _) Hs. rewrite Forall_forall in Hall. apply Hall.
  eapply list_elem_of_lookup_2, Hs.
Qed.

Lemma same_const_members_refl s : same_const_members s s.
Proof. repeat split. Qed.

(** The member functions that change a section leave its [const] members
    alone, whether they return or fail: each is a [step_member]. *)
Lemma members_keep_const s :
  (forall o sy ty ad va,
      same_const_members s (state_of (addRelocation o sy ty ad va s)))
  /\ (forall r, same_const_members s (state_of (addDynamicRelocation r s)))
  /\ (forall r, same_const_members s (state_of (addPendingRelocation r s)))
  /\ (forall o bytes, same_const_members s (state_of (addPatch o bytes s)))
  /\ (forall k, same_const_members s (state_of (removeRelocationAt k s)))
  /\ (forall k, same_const_members s (state_of (takeDynamicRelocationAt k s)))
  /\ (forall id, same_const_members s (state_of (setSectionID id s)))
  /\ (forall p, same_const_members s (state_of (addPadding p s)))
  /\ (forall g d n,
        same_const_members s (snd (state_of (updateContents d n (g, s))))
        /\ Count (fst (state_of (updateContents d n (g, s)))) = Count g).
Proof.
  repeat split.
  all: try (rewrite addRelocation_checked; destruct (_ <? _); reflexivity).
  all: try (rewrite addDynamicRelocation_checked; destruct (_ <? _); reflexivity).
  all: try (unfold removeRelocationAt, bind, get, modify, ret;
            destruct (negb _); reflexivity).
  all: try (unfold takeDynamicRelocationAt, bind, get, modify, ret;
            destruct (_ =? _)%nat; reflexivity).
  all: try (unfold setSectionID, bind, get, assert, modify;
            destruct (negb _); reflexivity).
  all: unfold updateContents, bind, gets, getContentsOrQuit; cbn [snd];
    destruct (negb (is_null (getOutputData s)) && negb (hasValidSectionID s));
    try reflexivity;
    destruct (negb (hasSectionRef s)); try reflexivity;
    destruct (getSectionRef s) as [r|]; try reflexivity;
    destruct (ref_objectIsELF r && (ref_ELFType r =? SHT_NOBITS));
    unfold ret; try (destruct (negb (_ =? _)); reflexivity);
    destruct (ref_Contents r); unfold ret, exit;
    try (destruct (negb (_ =? _)); reflexivity); reflexivity.
Qed.

(** In every state of the process the counter is a 64-bit value and the
    live sections carry creation numbers between one and the counter that
    increase strictly in creation order, whichever of the three
    constructors made them and whichever sections have been destroyed
    since. *)
Theorem live_sections_numbered w :
  reachable w ->
  0 <= Count (globals w) < Int.modulus64
  /\ Forall (fun s => 0 < SectionNumber s <= Count (globals w)) (live w)
  /\ (forall i j a b,
        (i < j)%nat -> live w !! i = Some a -> live w !! j = Some b ->
        SectionNumber a < SectionNumber b).
Proof.
  intros Hreach. pose proof (reachable_numbered w Hreach) as (Hc & Hall & Hsorted).
  split; [exact Hc|]. split; [exact Hall|].
  intros i j a b Hij Ha Hb.
  apply (StronglySorted_lookup_lt (SectionNumber <$> live w) i j); try assumption.
  - rewrite list_lookup_fmap, Ha. reflexivity.
  - rewrite list_lookup_fmap, Hb. reflexivity.
Qed.

End Numbering.

End ProcessFacts.

Lemma one_section_reachable : @Process.reachable gABI one_section.
Proof.
  apply (Process.reachable_step Process.initial).
  - apply Process.reachable_initial.
  - apply (@Process.step_synthetic gABI Process.initial
             ELF_context ".note" 4096 3 1 7 0).
    + unfold Process.counter_left. cbn. rewrite modulus64_eq. lia.
    + reflexivity.
Qed.

Lemma counter_left_sample n :
  0 <= n < 1000 -> @Process.counter_left (mkGlobals n []).
Proof. intros H. unfold Process.counter_left. cbn. rewrite modulus64_eq. lia. Qed.

Lemma two_of_three_reachable : @Process.reachable gABI two_of_three.
Proof.
  apply (Process.reachable_step
           (Process.mkWorld (mkGlobals 3 []) [text16; data16; empty_at_8192])).
  - apply (Process.reachable_step
             (Process.mkWorld (mkGlobals 2 []) [text16; data16])).
    + apply (Process.reachable_step
               (Process.mkWorld (mkGlobals 1 []) [text16])).
      * apply (Process.reachable_step Process.initial).
        -- apply Process.reachable_initial.
        -- apply (@Process.step_input gABI Process.initial
                    ELF_context text_ref (0, 0)).
           ++ apply counter_left_sample. lia.
           ++ reflexivity.
      * apply (@Process.step_synthetic gABI
                 (Process.mkWorld (mkGlobals 1 []) [text16])
                 ELF_context ".data" nullptr 16 1 1 3).
        -- apply counter_left_sample. lia.
        -- reflexivity.
    + apply (@Process.step_input gABI
               (Process.mkWorld (mkGlobals 2 []) [text16; data16])
               ELF_context marker_ref (0, 0)).
      * apply counter_left_sample. lia.
      * reflexivity.
  - apply (@Process.step_destroy gABI
             (Process.mkWorld (mkGlobals 3 []) [text16; data16; empty_at_8192])
             1%nat (mkGlobals 3 [])).
    reflexivity.
Qed.

Lemma with_copies_reachable : @Process.reachable gABI with_copies.
Proof.
  apply (Process.reachable_step
           (Process.mkWorld (mkGlobals 3 [])
              [text16; empty_at_4096; text16_copy])).
  - apply (Process.reachable_step
             (Process.mkWorld (mkGlobals 2 []) [text16; empty_at_4096])).
    + apply (Process.reachable_step
               (Process.mkWorld (mkGlobals 1 []) [text16])).
      * apply (Process.reachable_step Process.initial).
        -- apply Process.reachable_initial.
        -- apply (@Process.step_input gABI Process.initial
                    ELF_context text_ref (0, 0)).
           ++ apply counter_left_sample. lia.
           ++ reflexivity.
      * apply (@Process.step_input gABI
                 (Process.mkWorld (mkGlobals 1 []) [text16])
                 ELF_context start_ref (0, 0)).
        -- apply counter_left_sample. lia.
        -- reflexivity.
    + apply (@Process.step_copy gABI
               (Process.mkWorld (mkGlobals 2 []) [text16; empty_at_4096])
               ELF_context ".text.copy" 0%nat text16).
      * apply counter_left_sample. lia.
      * reflexivity.
      * reflexivity.
  - apply (@Process.step_copy gABI
             (Process.mkWorld (mkGlobals 3 [])
                [text16; empty_at_4096; text16_copy])
             ELF_context ".start.copy" 1%nat empty_at_4096).
    + apply counter_left_sample. lia.
    + reflexivity.
    + reflexivity.
Qed.

Lemma live_sections_numbered_witness :
  Process.live two_of_three = [text16; empty_at_8192]
  /\ Forall (fun s => 0 < SectionNumber s <= 3) (Process.live two_of_three)
  /\ SectionNumber text16 < SectionNumber empty_at_8192.
Proof.
  destruct (@ProcessFacts.live_sections_numbered gABI two_of_three
              two_of_three_reachable) as (_ & Hall & Hlt).
  split; [reflexivity|]. split; [exact Hall|].
  apply (Hlt 0%nat 1%nat); [lia | reflexivity | reflexivity].
Defined.

(** ** The ordering is a strict total order *)

Section StrictTotalOrder.

Import OrderingPolicy OrderingFacts Process ProcessFacts.

Context {elf : ELFConstants}.

Lemma operator_lt_lex a b : operator_lt a b = true <-> lex (key a) (key b) = Lt.
Proof. rewrite operator_lt_before. apply before_lex. Qed.

Lemma operator_lt_false_lex a b :
  operator_lt a b = false <-> lex (key a) (key b) <> Lt.
Proof. rewrite operator_lt_before. apply before_false_lex. Qed.

Lemma key_SectionNumber a b : key a = key b -> SectionNumber a = SectionNumber b.
Proof. unfold key. intros H. injection H. auto. Qed.

Lemma operator_lt_asymmetric a b :
  operator_lt a b = true -> operator_lt b a = false.
Proof.
  rewrite operator_lt_lex, operator_lt_false_lex, (lex_antisym (key a) (key b)).
  intros ->. discriminate.
Qed.

Lemma operator_lt_total a b :
  SectionNumber a <> SectionNumber b ->
  xorb (operator_lt a b) (operator_lt b a) = true.
Proof.
  intros Hne.
  destruct (operator_lt a b) eqn:Hab.
  - rewrite (operator_lt_asymmetric a b Hab). reflexivity.
  - destruct (operator_lt b a) eqn:Hba; [reflexivity|]. exfalso.
    apply operator_lt_false_lex in Hab, Hba.
    rewrite (lex_antisym (key a) (key b)) in Hba.
    apply Hne, key_SectionNumber, lex_eq; [reflexivity|].
    destruct (lex (key a) (key b)); [reflexivity|contradiction|].
    cbn in Hba. contradiction.
Qed.

(** C1 (as amended): [operator<] evaluates the eight-step cascade of
    tie-breaks in which step 4, like step 3, applies among the sections
    sourced from the input file only (allocatable first, input-sourced
    first, then among the input-sourced ascending input address and, when
    the addresses tie and are nonzero, ascending size, executable first,
    read-only first, non-BSS first, ascending creation number).  It is
    irreflexive, asymmetric and
    transitive; two sections with different creation numbers compare
    exactly one way, and two sections compare neither way only when all
    eight criteria agree.  Sections alive together have different creation
    numbers, so exactly one of [a < b] and [b < a] holds for them. *)
Theorem operator_lt_strict_total_order :
  (forall a b, operator_lt a b = before a b)
  /\ StrictOrder (fun a b => operator_lt a b = true)
  /\ (forall a, operator_lt a a = false)
  /\ (forall a b, operator_lt a b = true -> operator_lt b a = false)
  /\ (forall a b c,
        operator_lt a b = true -> operator_lt b c = true -> operator_lt a c = true)
  /\ (forall a b,
        SectionNumber a <> SectionNumber b ->
        xorb (operator_lt a b) (operator_lt b a) = true)
  /\ (forall a b,
        operator_lt a b = false -> operator_lt b a = false -> key a = key b)
  /\ (forall w i j a b,
        reachable w -> i <> j ->
        live w !! i = Some a -> live w !! j = Some b ->
        xorb (operator_lt a b) (operator_lt b a) = true).
Proof.
  assert (Hirr : forall a, operator_lt a a = false).
  { intros a. apply operator_lt_false_lex. rewrite lex_refl. discriminate. }
  assert (Htrans : forall a b c,
             operator_lt a b = true -> operator_lt b c = true ->
             operator_lt a c = true).
  { intros a b c. rewrite !operator_lt_lex. apply lex_trans. }
  split; [exact operator_lt_before|].
  split.
  { split.
    - intros a Ha. rewrite Hirr in Ha. discriminate.
    - exact Htrans. }
  split; [exact Hirr|].
  split; [exact operator_lt_asymmetric|].
  split; [exact Htrans|].
  split; [exact operator_lt_total|].
  split.
  { intros a b Hab Hba. apply operator_lt_false_lex in Hab, Hba.
    rewrite (lex_antisym (key a) (key b)) in Hba.
    apply lex_eq; [reflexivity|].
    destruct (lex (key a) (key b)); [reflexivity|contradiction|].
    cbn in Hba. contradiction. }
  intros w i j a b Hreach Hij Ha Hb. apply operator_lt_total.
  eapply numbered_distinct; eauto using reachable_numbered.
Qed.

End StrictTotalOrder.

Lemma operator_lt_strict_total_order_witness :
  @operator_lt gABI text16 data16 = true
  /\ @operator_lt gABI data16 text16 = false.
Proof.
  assert (H : @operator_lt gABI text16 data16 = true) by reflexivity.
  split; [exact H|].
  destruct (@operator_lt_strict_total_order gABI) as (_ & _ & _ & Hasym & _).
  apply Hasym, H.
Defined.

(** C1, the claim as stated fails: the copies of two sections of the input
    file that start at address 4096, one of 16 bytes and one empty, are
    sections of one process without a section reference whose addresses
    tie and are nonzero.  Step 4 of the cascade as worded puts the empty
    copy first, by size; [operator<] puts the copy of 16 bytes first, by
    creation number. *)
Lemma operator_lt_copies_by_creation :
  @BinarySection_copy ELF_context ".text.copy" text16 (mkGlobals 2 [])
  = (Done text16_copy, mkGlobals 3 [])
  /\ @BinarySection_copy ELF_context ".start.copy" empty_at_4096 (mkGlobals 3 [])
     = (Done empty_copy, mkGlobals 4 [])
  /\ @Process.reachable gABI with_copies
  /\ Process.live with_copies !! 2%nat = Some text16_copy
  /\ Process.live with_copies !! 3%nat = Some empty_copy
  /\ @OrderingPolicy.addresses_tie_and_nonzero text16_copy empty_copy = true
  /\ getSize empty_copy < getSize text16_copy
  /\ @OrderingPolicy.before_as_worded gABI text16_copy empty_copy = false
  /\ @OrderingPolicy.before_as_worded gABI empty_copy text16_copy = true
  /\ @operator_lt gABI text16_copy empty_copy = true
  /\ @operator_lt gABI empty_copy text16_copy = false.
Proof.
  split; [reflexivity|]. split; [reflexivity|].
  split; [exact with_copies_reachable|].
  split; [reflexivity|]. split; [reflexivity|]. split; [reflexivity|].
  split; [cbn; lia|]. repeat split.
Qed.

(** ** The copy constructor *)

Section CopyConstructor.

Import Process ProcessFacts.

Context {elf : ELFConstants}.

(** C9: copying a live section, while the creation counter has not run
    out, gives a section with the new name that has the input contents,
    address, size, alignment, ELF type and flags, static relocations and
    pending relocations of the source, no dynamic relocations, no patches
    and no section reference, and a creation number above that of the
    source and of every live section.  Without a section reference it
    ranks, in [operator<], after every input section that is allocatable
    as it is. *)
Theorem copy_constructor_fields w i src ctx name :
  reachable w ->
  counter_left (globals w) ->
  live w !! i = Some src ->
  exists s,
    BinarySection_copy ctx name src (globals w)
    = (Done s, set_Count (Count (globals w) + 1) (globals w))
    /\ getName s = name
    /\ getContents s = getContents src
    /\ getAddress s = getAddress src
    /\ getSize s = getSize src
    /\ getAlignment s = getAlignment src
    /\ getELFType s = getELFType src
    /\ getELFFlags s = getELFFlags src
    /\ Relocations s = Relocations src
    /\ PendingRelocations s = PendingRelocations src
    /\ DynamicRelocations s = Multiset.empty
    /\ Patches s = []
    /\ hasSectionRef s = false
    /\ SectionNumber s = Count (globals w) + 1
    /\ SectionNumber src < SectionNumber s
    /\ Forall (fun o => SectionNumber o < SectionNumber s) (live w)
    /\ (forall o, hasSectionRef o = true ->
          isAllocatable o = isAllocatable s ->
          operator_lt o s = true /\ operator_lt s o = false).
Proof.
  intros Hreach Hleft Hsrc.
  pose proof (reachable_numbered w Hreach) as Hnum.
  pose proof (numbered_below_counter w i src Hnum Hsrc) as Hbelow.
  destruct Hnum as (Hc & Hall & _). unfold counter_left in Hleft.
  assert (Hadd : Int.add64 (Count (globals w)) 1 = Count (globals w) + 1)
    by (apply add64_exact; lia).
  eexists. split.
  { unfold BinarySection_copy, bind. rewrite increment_Count_eq, Hadd.
    reflexivity. }
  cbn [getName getContents getAddress getSize getAlignment getELFType
       getELFFlags hasSectionRef Name Contents Address Size Alignment ELFType
       ELFFlags Relocations PendingRelocations DynamicRelocations Patches
       Section SectionNumber].
  repeat (split; [reflexivity|]).
  split; [lia|]. split.
  { eapply Forall_impl; [exact Hall|]. cbn. intros; lia. }
  intros o Href Halloc. unfold operator_lt, bool_ne, bool_gt.
  rewrite Halloc, Href, xorb_nilpotent. cbn [hasSectionRef Section xorb andb negb].
  split; reflexivity.
Qed.

End CopyConstructor.

Lemma copy_constructor_fields_witness :
  exists s,
    Process.live one_section !! 0%nat = Some note3
    /\ BinarySection_copy ELF_context ".note.copy" note3
         (Process.globals one_section)
       = (Done s, mkGlobals 2 [])
    /\ SectionNumber note3 < SectionNumber s
    /\ hasSectionRef s = false.
Proof.
  destruct (@copy_constructor_fields gABI one_section 0%nat note3 ELF_context
              ".note.copy" one_section_reachable) as (s & Hs & Hrest).
  - unfold Process.counter_left. cbn. rewrite modulus64_eq. lia.
  - reflexivity.
  - exists s. split; [reflexivity|]. split; [exact Hs|].
    destruct Hrest as (_ & _ & _ & _ & _ & _ & _ & _ & _ & _ & _ & Href & _ & Hlt & _).
    split; [exact Hlt | exact Href].
Defined.

(** * Further properties *)

(** ** Copying byte arrays *)

Lemma read_bytes_ext m m' p q n :
  (forall i, 0 <= i < n -> m' (p + i) = m (q + i)) ->
  read_bytes m' p n = read_bytes m q n.
Proof.
  intros H. unfold read_bytes. apply map_ext_in. intros i Hi.
  apply in_seq in Hi. apply H. lia.
Qed.

(** [copyByteArray] returns the new array, which holds the [Size] bytes
    of the source; no byte outside the new array changes, the source
    included.  Handed to [updateContents], the copy reads back as the
    source bytes from the output contents. *)
Theorem copyByteArray_copies {elf : ELFConstants}
    (Array Data0 : ptr) (Size0 : Z) (m : Memory) :
  0 <= Size0 ->
  regions_disjoint Array Size0 Data0 Size0 ->
  exists m',
    copyByteArray Array Data0 Size0 m = (Done Array, m')
    /\ copyByteArray_buffer Array (mkArrayRef Data0 Size0) m = (Done Array, m')
    /\ read_bytes m' Array Size0 = read_bytes m Data0 Size0
    /\ read_bytes m' Data0 Size0 = read_bytes m Data0 Size0
    /\ (forall a, ~ (Array <= a < Array + Size0) -> m' a = m a)
    /\ (forall g s,
          can_reread s = true -> is_null Array = false ->
          result_of (updateContents Array Size0 (g, s)) = Done tt
          /\ view_bytes m'
               (getOutputContents (snd (state_of (updateContents Array Size0 (g, s)))))
             = read_bytes m Data0 Size0).
Proof.
  intros Hsize Hdisj. exists (memcpy Array Data0 Size0 m).
  assert (Hcopy : read_bytes (memcpy Array Data0 Size0 m) Array Size0
                  = read_bytes m Data0 Size0).
  { apply read_bytes_ext. intros i Hi. unfold memcpy.
    replace ((Array <=? Array + i) && (Array + i <? Array + Size0)) with true
      by (symmetry; apply andb_true_iff; split;
          [apply Z.leb_le | apply Z.ltb_lt]; lia).
    f_equal. lia. }
  split; [reflexivity|]. split; [reflexivity|]. split; [exact Hcopy|].
  split; [|split].
  - apply read_bytes_ext. intros i Hi. unfold memcpy.
    replace ((Array <=? Data0 + i) && (Data0 + i <? Array + Size0)) with false;
      [reflexivity|].
    symmetry. apply andb_false_iff. unfold regions_disjoint in Hdisj.
    destruct Hdisj; [right; apply Z.ltb_ge | left; apply Z.leb_gt]; lia.
  - intros a Ha. unfold memcpy.
    replace ((Array <=? a) && (a <? Array + Size0)) with false; [reflexivity|].
    symmetry. apply andb_false_iff.
    destruct (Z.leb_spec Array a); [right; apply Z.ltb_ge; lia | left; reflexivity].
  - intros g s Hre Hnn.
    destruct (updateContents_returns g s Array Size0 Hre) as (g' & Hup & _).
    rewrite Hup. split; [reflexivity|].
    cbn [state_of snd getOutputContents OutputContents set_IsFinalized
         set_OutputSize set_OutputContents].
    unfold view_bytes. cbn [Data Length]. rewrite Hnn. exact Hcopy.
Qed.

Lemma copyByteArray_copies_witness :
  exists m',
    copyByteArray 8192 4096 3 (fun a => if a =? 4097 then Byte.x2a else Byte.x00)
    = (Done 8192, m')
    /\ read_bytes m' 8192 3 = [Byte.x00; Byte.x2a; Byte.x00].
Proof.
  destruct (@copyByteArray_copies gABI 8192 4096 3
              (fun a => if a =? 4097 then Byte.x2a else Byte.x00))
    as (m' & Hrun & _ & Hcopy & _).
  - lia.
  - right. lia.
  - exists m'. split; [exact Hrun|]. rewrite Hcopy. reflexivity.
Defined.

(** ** Ranges of addresses *)

(** For a section and a range that do not wrap around the 64-bit address
    space, [containsRange] holds exactly when the range starts inside the
    section and ends at or before its end, or when section and range are
    both empty and start at the same address.  Every address of a contained
    range is then contained, and the empty range at the end address of a
    section that is not empty is not contained. *)
Theorem containsRange_within s A Sz :
  wf_geometry s -> Int.in_u64 A -> 0 <= Sz ->
  A + Sz < Int.modulus64 ->
  Address s + Size s < Int.modulus64 ->
  (containsRange s A Sz = true <->
     (Address s <= A < Address s + Size s /\ A + Sz <= Address s + Size s)
     \/ (Size s = 0 /\ A = Address s /\ Sz = 0))
  /\ (containsRange s A Sz = true ->
      forall B, A <= B < A + Sz -> containsAddress s B = true)
  /\ (Size s <> 0 -> containsRange s (getEndAddress s) 0 = false).
Proof.
  intros Hwf HA HSz Hfit Hsfit.
  pose proof (getEndAddress_exact s Hwf Hsfit) as Hend.
  assert (Hsum : Int.add64 A Sz = A + Sz).
  { apply add64_exact; [apply HA | exact HSz | exact Hfit]. }
  destruct Hwf as [[Ha0 _] [Hs0 _]].
  assert (Hiff : containsRange s A Sz = true <->
     (Address s <= A < Address s + Size s /\ A + Sz <= Address s + Size s)
     \/ (Size s = 0 /\ A = Address s /\ Sz = 0)).
  { unfold containsRange. rewrite andb_true_iff, containsAddress_unfold, Z.leb_le.
    rewrite Hsum, Hend. unfold getAddress, getSize. split.
    - intros [[Hin | [Hz He]] Hle]; [left; tauto|]. right. lia.
    - intros [[Hin Hle] | (Hz & He & Hsz)]; [tauto|]. split; [right|]; lia. }
  split; [exact Hiff|]. split.
  - intros Hc B HB. apply Hiff in Hc. apply containsAddress_unfold.
    rewrite Hend. unfold getAddress, getSize. destruct Hc; [left|]; lia.
  - intros Hnz. unfold containsRange.
    replace (containsAddress s (getEndAddress s)) with false; [reflexivity|].
    symmetry. apply not_true_is_false. rewrite containsAddress_unfold.
    unfold getSize. intros [Hin | [Hz _]]; [lia | contradiction].
Qed.

Lemma containsRange_within_witness :
  containsRange text16 4100 8 = true
  /\ containsRange text16 4100 13 = false
  /\ containsRange text16 4112 0 = false.
Proof.
  assert (Hwf : wf_geometry text16).
  { unfold wf_geometry, Int.in_u64. rewrite modulus64_eq. cbn. lia. }
  assert (H8 : containsRange text16 4100 8 = true).
  { apply (containsRange_within text16 4100 8 Hwf);
      unfold Int.in_u64; rewrite ?modulus64_eq; cbn; lia. }
  split; [exact H8|]. split; reflexivity.
Defined.

(** ** Equality is an equivalence *)

(** [operator==] is reflexive, symmetric and transitive, and [operator!=]
    is its negation.  A copy made under the name of its source compares
    equal to the source; a copy made under another name does not. *)
Theorem operator_eq_equivalence :
  (forall a, operator_eq a a = true)
  /\ (forall a b, operator_eq a b = operator_eq b a)
  /\ (forall a b c,
        operator_eq a b = true -> operator_eq b c = true -> operator_eq a c = true)
  /\ (forall ctx name src g,
        exists s g',
          BinarySection_copy ctx name src g = (Done s, g')
          /\ operator_eq s src = String.eqb name (Name src)
          /\ operator_ne s src = negb (String.eqb name (Name src))).
Proof.
  split; [|split; [|split]].
  - intros a. unfold operator_eq. rewrite String.eqb_refl, !Z.eqb_refl. reflexivity.
  - intros a b. unfold operator_eq.
    rewrite (String.eqb_sym (Name a)), (Z.eqb_sym (Address a)),
      (Z.eqb_sym (Size a)), (Z.eqb_sym (getData a)), (Z.eqb_sym (Alignment a)),
      (Z.eqb_sym (ELFType a)), (Z.eqb_sym (ELFFlags a)).
    reflexivity.
  - intros a b c. unfold operator_eq.
    rewrite !andb_true_iff, !String.eqb_eq, !Z.eqb_eq.
    intros [[[[[[H1 H2] H3] H4] H5] H6] H7] [[[[[[G1 G2] G3] G4] G5] G6] G7].
    repeat split; congruence.
  - intros ctx name src g. eexists _, _. split; [reflexivity|].
    unfold operator_ne, operator_eq, getData, getContents, getAddress, getSize,
      getAlignment, getELFType, getELFFlags.
    cbn [Name Address Size Contents Alignment ELFType ELFFlags].
    rewrite !Z.eqb_refl, !andb_true_r. split; reflexivity.
Qed.

(** ** Sections of the input file *)

Section InputConstructor.

Context {elf : ELFConstants}.

Lemma getContentsOrQuit_view (S : Type) r (st : S) :
  contents_available r = true ->
  getContentsOrQuit r st = (Done (input_view r), st).
Proof.
  unfold contents_available, getContentsOrQuit, input_view. intros H.
  destruct (ref_objectIsELF r && (ref_ELFType r =? SHT_NOBITS)); [reflexivity|].
  destruct (ref_Contents r); [reflexivity|discriminate].
Qed.

Lemma getContentsOrQuit_exits (S : Type) r (st : S) :
  contents_available r = false ->
  getContentsOrQuit r st = (Exited 1, st).
Proof.
  unfold contents_available, getContentsOrQuit. intros H.
  destruct (ref_objectIsELF r && (ref_ELFType r =? SHT_NOBITS)); [discriminate|].
  destruct (ref_Contents r); [discriminate|reflexivity].
Qed.

(** The three outcomes of the constructor from a section of the input
    file.  When the name of the section cannot be read the constructor
    aborts in [cantFail], before the contents are read, whatever they are.
    When the name can be read, it exits with code 1 exactly when the
    section is not an ELF [SHT_NOBITS] section and its contents cannot be
    read.  In both cases the creation counter is as it was.  Otherwise it
    returns a section that refers to the input section, has the name read
    (also as output name), the address and the size of the input section,
    is not finalized, has no output contents and no relocations, and whose
    input contents are the contents read, empty for an ELF [SHT_NOBITS]
    section whatever the file holds.  The ELF type, flags and file offset
    are taken from the input section only in an ELF context. *)
Theorem BinarySection_input_outcome ctx r ind g :
  (ref_Name r = None ->
     BinarySection_input ctx r ind g = (AssertionFailure cantFail_message, g))
  /\ (forall name, ref_Name r = Some name -> contents_available r = false ->
     BinarySection_input ctx r ind g = (Exited 1, g))
  /\ (forall name, ref_Name r = Some name -> contents_available r = true ->
      exists s,
        BinarySection_input ctx r ind g
        = (Done s, set_Count (Int.add64 (Count g) 1) g)
        /\ getSectionRef s = Some r /\ hasSectionRef s = true
        /\ getName s = name /\ getOutputName s = name
        /\ getAddress s = ref_Address r /\ getSize s = ref_Size r
        /\ getAlignment s = Int.wrap32 (ref_Alignment r)
        /\ getContents s = input_view r
        /\ (ref_objectIsELF r = true -> ref_ELFType r = SHT_NOBITS ->
            getContents s = StringRef_empty)
        /\ isFinalized s = false /\ getOutputSize s = 0
        /\ getOutputContents s = StringRef_empty
        /\ hasRelocations s = false /\ hasPendingRelocations s = false
        /\ DynamicRelocations s = Multiset.empty
        /\ hasValidSectionID s = false
        /\ SectionNumber s = Int.add64 (Count g) 1
        /\ (ctx_isELF ctx = true ->
            getELFType s = ref_ELFType r
            /\ getELFFlags s = Int.wrap32 (ref_ELFFlags r)
            /\ getInputFileOffset s = ref_ELFOffset r)
        /\ (ctx_isELF ctx = false ->
            getELFType s = fst ind /\ getELFFlags s = snd ind
            /\ getInputFileOffset s
               = if ctx_isMachO ctx then ref_MachOOffset r else 0)).
Proof.
  split; [|split].
  - intros Hname. unfold BinarySection_input, bind, getName_of.
    rewrite Hname. reflexivity.
  - intros name Hname Hno. unfold BinarySection_input, bind, getName_of.
    rewrite Hname. unfold cantFail, ret at 1.
    rewrite getContentsOrQuit_exits by exact Hno. reflexivity.
  - intros name Hname Hav. unfold BinarySection_input, bind, getName_of.
    rewrite Hname. unfold cantFail, ret at 1.
    rewrite getContentsOrQuit_view by exact Hav.
    rewrite increment_Count_eq. unfold isELF, isMachO. cbn [BC].
    assert (Hnobits : ref_objectIsELF r = true -> ref_ELFType r = SHT_NOBITS ->
                      input_view r = StringRef_empty).
    { intros H1 H2. unfold input_view. rewrite H1, H2, Z.eqb_refl. reflexivity. }
    destruct (ctx_isELF ctx) eqn:Hctx; [|destruct (ctx_isMachO ctx) eqn:Hm];
      eexists; (split; [reflexivity|]);
      cbn; repeat (split; [first [reflexivity | exact Hnobits]|]);
      split; intros; try discriminate; repeat split.
Qed.

End InputConstructor.

Lemma BinarySection_input_outcome_witness :
  @BinarySection_input gABI ELF_context unnamed_ref (0, 0) (mkGlobals 0 [])
  = (AssertionFailure cantFail_message, mkGlobals 0 [])
  /\ @BinarySection_input gABI ELF_context unreadable_ref (0, 0) (mkGlobals 0 [])
     = (Exited 1, mkGlobals 0 [])
  /\ exists s,
       @BinarySection_input gABI ELF_context text_ref (0, 0) (mkGlobals 0 [])
       = (Done s, mkGlobals 1 [])
       /\ getName s = ".text"%string /\ getSectionRef s = Some text_ref.
Proof.
  split; [|split].
  - destruct (@BinarySection_input_outcome gABI ELF_context unnamed_ref (0, 0)
                (mkGlobals 0 [])) as (Habort & _).
    apply Habort. reflexivity.
  - destruct (@BinarySection_input_outcome gABI ELF_context unreadable_ref
                (0, 0) (mkGlobals 0 [])) as (_ & Hexit & _).
    apply (Hexit ".text"%string); reflexivity.
  - destruct (@BinarySection_input_outcome gABI ELF_context text_ref (0, 0)
                (mkGlobals 0 [])) as (_ & _ & Hret).
    destruct (Hret ".text"%string eq_refl eq_refl)
      as (s & Hs & Href & _ & Hname & _).
    exists s. split; [exact Hs|]. split; [exact Hname | exact Href].
Defined.

(** ** Release of the output buffer *)

Section BufferRelease.

Context {elf : ELFConstants}.

Lemma updateContents_run g s NewData NewSize :
  can_reread s = true ->
  updateContents NewData NewSize (g, s)
  = (Done tt,
     (if owns_output_buffer s
      then set_Deleted (Deleted g ++ [getOutputData s]) g else g,
      set_IsFinalized true
        (set_OutputSize NewSize
           (set_OutputContents
              (mkStringRef NewData (if is_null NewData then 0 else NewSize)) s)))).
Proof.
  intros Hre. unfold updateContents, owns_output_buffer, bind, gets. cbn [snd].
  destruct (negb (is_null (getOutputData s)) && negb (hasValidSectionID s));
    [|reflexivity].
  unfold can_reread, hasSectionRef, getSectionRef in *. cbn [andb].
  destruct (Section s) as [r|]; cbn [negb]; [|reflexivity].
  rewrite getContentsOrQuit_view by exact Hre. unfold ret.
  change (Data (OutputContents s)) with (getOutputData s).
  destruct (negb (getOutputData s =? Data (input_view r))); reflexivity.
Qed.


(** Two updates in a row: the buffer of the first is released by the
    second, unless a section id was set in between. *)
Lemma updateContents_twice g s d1 n1 d2 n2 :
  Section s = None -> hasValidSectionID s = false -> is_null d1 = false ->
  exists g1 s1 g2 s2,
    updateContents d1 n1 (g, s) = (Done tt, (g1, s1))
    /\ updateContents d2 n2 (g1, s1) = (Done tt, (g2, s2))
    /\ Deleted g2 = Deleted g1 ++ [d1]
    /\ updateContents d2 n2 (g1, set_SectionID "id" s1)
       = (Done tt, (g1, set_SectionID "id" s2)).
Proof.
  intros Hsec Hid Hnn.
  assert (Hre : can_reread s = true) by (unfold can_reread; rewrite Hsec; reflexivity).
  rewrite (updateContents_run g s d1 n1 Hre).
  eexists _, _, _, _. split; [reflexivity|].
  rewrite updateContents_run by (unfold can_reread; cbn; rewrite Hsec; reflexivity).
  split; [reflexivity|]. split.
  - unfold owns_output_buffer, getOutputData, getOutputContents, hasValidSectionID.
    cbn [OutputContents SectionID Section set_IsFinalized set_OutputSize
         set_OutputContents Data].
    unfold hasValidSectionID in Hid. rewrite Hnn, Hid, Hsec. reflexivity.
  - rewrite updateContents_run by (unfold can_reread; cbn; rewrite Hsec; reflexivity).
    unfold owns_output_buffer, getOutputData, getOutputContents, hasValidSectionID.
    cbn [OutputContents SectionID Section set_IsFinalized set_OutputSize
         set_OutputContents set_SectionID Data].
    rewrite Hnn. reflexivity.
Qed.

End BufferRelease.


(** ** Alignment is checked where a caller supplies it *)

Section AlignmentChecked.

Context {elf : ELFConstants}.

(** The synthetic constructor and [update] trip their assertion exactly
    when the alignment supplied is not above zero: the constructor after
    the creation counter was incremented, [update] before it changes
    anything.  When they return, the alignment of the section is above
    zero; [update] has then set alignment, ELF type and ELF flags as given
    and replaced the output contents as [updateContents] does, without
    touching the input geometry, the input contents or the relocations. *)
Theorem alignment_is_checked :
  (forall ctx name d sz al ty fl g,
      al <= 0 ->
      BinarySection_synthetic ctx name d sz al ty fl g
      = (AssertionFailure "section alignment must be > 0",
         set_Count (Int.add64 (Count g) 1) g))
  /\ (forall ctx name d sz al ty fl g s g',
        BinarySection_synthetic ctx name d sz al ty fl g = (Done s, g') ->
        0 < getAlignment s /\ getAlignment s = al)
  /\ (forall g s d n al ty fl,
        al <= 0 ->
        update d n al ty fl (g, s)
        = (AssertionFailure "section alignment must be > 0", (g, s)))
  /\ (forall g s d n al ty fl,
        0 < al -> can_reread s = true ->
        exists g' s',
          update d n al ty fl (g, s) = (Done tt, (g', s'))
          /\ getAlignment s' = al /\ getELFType s' = ty /\ getELFFlags s' = fl
          /\ getOutputSize s' = n /\ isFinalized s' = true
          /\ getOutputData s' = d
          /\ Deleted g'
             = (if owns_output_buffer s then Deleted g ++ [getOutputData s]
                else Deleted g)
          /\ getAddress s' = getAddress s /\ getSize s' = getSize s
          /\ getContents s' = getContents s
          /\ Relocations s' = Relocations s
          /\ DynamicRelocations s' = DynamicRelocations s
          /\ PendingRelocations s' = PendingRelocations s).
Proof.
  split; [|split; [|split]].
  - intros ctx name d sz al ty fl g Hal.
    unfold BinarySection_synthetic, bind. rewrite increment_Count_eq.
    unfold assert. replace (0 <? al) with false
      by (symmetry; apply Z.ltb_ge; exact Hal).
    reflexivity.
  - intros ctx name d sz al ty fl g s g'.
    unfold BinarySection_synthetic, bind. rewrite increment_Count_eq.
    unfold assert. destruct (0 <? al) eqn:Hal; [|discriminate].
    apply Z.ltb_lt in Hal. unfold ret. intros H. injection H as <- _.
    split; [exact Hal | reflexivity].
  - intros g s d n al ty fl Hal. unfold update, bind, assert.
    replace (0 <? al) with false by (symmetry; apply Z.ltb_ge; exact Hal).
    reflexivity.
  - intros g s d n al ty fl Hal Hre. unfold update, bind, assert.
    replace (0 <? al) with true by (symmetry; apply Z.ltb_lt; exact Hal).
    unfold on_this, modify. cbn [fst snd].
    rewrite updateContents_run by exact Hre.
    eexists _, _. split; [reflexivity|].
    repeat (split; [reflexivity|]).
    split; [|repeat split].
    unfold owns_output_buffer, getOutputData, getOutputContents, hasValidSectionID.
    cbn [OutputContents SectionID Section set_ELFFlags set_ELFType set_Alignment].
    destruct (_ && _ && _); reflexivity.
Qed.

End AlignmentChecked.

(** ** Reading the section id *)

(** [getSectionID] trips its assertion on a section without a valid id and
    returns the id otherwise, leaving the section as it is; after
    [setSectionID] with a non-empty id on a section without one it returns
    that id. *)
Theorem getSectionID_after_set s :
  (hasValidSectionID s = false ->
     getSectionID s
     = (AssertionFailure "trying to use uninitialized section id", s))
  /\ (hasValidSectionID s = true -> getSectionID s = (Done (SectionID s), s))
  /\ (forall ID,
        hasValidSectionID s = false -> ID <> EmptyString ->
        bind (setSectionID ID) (fun _ => getSectionID) s
        = (Done ID, set_SectionID ID s))
  /\ (hasValidSectionID s = false ->
      bind (setSectionID EmptyString) (fun _ => getSectionID) s
      = (AssertionFailure "trying to use uninitialized section id", s)).
Proof.
  assert (Hget : forall s0,
    getSectionID s0
    = if hasValidSectionID s0 then (Done (SectionID s0), s0)
      else (AssertionFailure "trying to use uninitialized section id", s0)).
  { intros s0. unfold getSectionID, bind, get, assert, ret.
    destruct (hasValidSectionID s0); reflexivity. }
  split; [|split; [|split]].
  - intros H. rewrite Hget, H. reflexivity.
  - intros H. rewrite Hget, H. reflexivity.
  - intros ID Hunset Hne. unfold bind at 1.
    rewrite (setSectionID_unset s ID Hunset), Hget.
    rewrite hasValidSectionID_set_SectionID.
    replace (String.eqb ID EmptyString) with false
      by (symmetry; apply String.eqb_neq; exact Hne).
    reflexivity.
  - intros Hunset. unfold bind at 1.
    rewrite (setSectionID_unset s EmptyString Hunset), Hget.
    rewrite hasValidSectionID_set_SectionID. cbn.
    destruct s; unfold hasValidSectionID in Hunset; cbn in *.
    apply negb_false_iff, String.eqb_eq in Hunset. subst. reflexivity.
Qed.

(** ** Flags and classification *)

Section Flags.

Context {elf : ELFConstants}.

Lemma to_bool_nonzero x : x <> 0 -> to_bool x = true.
Proof. intros H. apply to_bool_true, H. Qed.

Lemma to_bool_zero : to_bool 0 = false.
Proof. reflexivity. Qed.

(** The flags [getFlags] builds read back through the predicates: in an
    ELF context a section with these flags is writable exactly when
    [IsReadOnly] was false, text exactly when [IsText] was true and
    allocatable exactly when [IsAllocatable] was true, and it is never
    thread-local.  The default arguments give no flag at all. *)
Theorem getFlags_read_back (IsReadOnly IsText IsAllocatable : bool) s :
  flag_bits_disjoint ->
  isELF s = true ->
  ELFFlags s = getFlags IsReadOnly IsText IsAllocatable ->
  isWritable s = negb IsReadOnly
  /\ isText s = IsText
  /\ isAllocatable s = IsAllocatable
  /\ isTLS s = false
  /\ getFlags true false false = 0.
Proof.
  intros (HW & HA & HX & HAW & HAX & HWX & HAT & HWT & HXT) Helf Hflags.
  pose proof (eq_trans (Z.land_comm _ _) HAW) as HWA.
  pose proof (eq_trans (Z.land_comm _ _) HAX) as HXA.
  pose proof (eq_trans (Z.land_comm _ _) HWX) as HXW.
  assert (Htls : isTLS s = false).
  { unfold isTLS. rewrite Hflags. unfold getFlags.
    destruct IsAllocatable, IsReadOnly, IsText; cbn [negb];
      rewrite ?Z.lor_0_l, ?Z.land_lor_distr_l, ?HAT, ?HWT, ?HXT, ?Z.land_0_l;
      reflexivity. }
  unfold isWritable, isText, isAllocatable, isTBSS. rewrite Helf, Htls, andb_false_r.
  cbn [negb]. rewrite andb_true_r, Hflags. unfold getFlags.
  split; [|split; [|split; [|split; [reflexivity|reflexivity]]]].
  - destruct IsAllocatable, IsReadOnly, IsText; cbn [negb];
      rewrite ?Z.lor_0_l, ?Z.land_lor_distr_l, ?Z.land_diag, ?HAW, ?HXW,
        ?Z.land_0_l, ?Z.lor_0_l, ?Z.lor_0_r;
      first [reflexivity | apply to_bool_nonzero, HW].
  - destruct IsAllocatable, IsReadOnly, IsText; cbn [negb];
      rewrite ?Z.lor_0_l, ?Z.land_lor_distr_l, ?Z.land_diag, ?HAX, ?HWX,
        ?Z.land_0_l, ?Z.lor_0_l, ?Z.lor_0_r;
      first [reflexivity | apply to_bool_nonzero, HX].
  - destruct IsAllocatable, IsReadOnly, IsText; cbn [negb];
      rewrite ?Z.lor_0_l, ?Z.land_lor_distr_l, ?Z.land_diag, ?HWA, ?HXA,
        ?Z.land_0_l, ?Z.lor_0_l, ?Z.lor_0_r;
      first [reflexivity | apply to_bool_nonzero, HA].
Qed.

(** How the classes of sections relate.  A thread-local BSS section is a
    BSS section, and a BSS section is virtual and has the allocatable or
    the writable flag.  In an ELF context a data section is neither BSS nor
    virtual.  In a context that is not ELF no section is a note, every
    section is allocatable, and a section without a section reference is
    neither text nor data whatever its flags say. *)
Theorem classes_of_sections s :
  (isTBSS s = true -> isBSS s = true /\ isTLS s = true)
  /\ (isBSS s = true ->
      isVirtual s = true
      /\ (to_bool (Z.land (ELFFlags s) SHF_ALLOC) = true \/ isWritable s = true))
  /\ (SHT_NOBITS <> SHT_PROGBITS -> isELF s = true -> isData s = true ->
      isBSS s = false /\ isVirtual s = false)
  /\ (isELF s = false ->
      isNote s = false /\ isAllocatable s = true
      /\ (hasSectionRef s = false -> isText s = false /\ isData s = false)).
Proof.
  split; [|split; [|split]].
  - apply isTBSS_split.
  - unfold isBSS, isVirtual, isWritable. rewrite andb_true_iff.
    intros [Hty Hfl]. split; [exact Hty|].
    rewrite !to_bool_true in *. rewrite Z.land_lor_distr_r in Hfl.
    destruct (Z.eq_dec (Z.land (ELFFlags s) SHF_ALLOC) 0) as [Ha|Ha];
      [|left; exact Ha].
    right. intros Hw. apply Hfl. rewrite Ha, Hw. reflexivity.
  - intros Hne Helf. unfold isData, isBSS, isVirtual. rewrite Helf.
    rewrite andb_true_iff, Z.eqb_eq. intros [Hty _].
    replace (ELFType s =? SHT_NOBITS) with false
      by (symmetry; apply Z.eqb_neq; congruence).
    split; reflexivity.
  - intros Helf. unfold isNote, isAllocatable, isText, isData. rewrite Helf.
    split; [reflexivity|]. split; [reflexivity|].
    intros ->. split; reflexivity.
Qed.

End Flags.

Lemma gABI_flag_bits_disjoint : @flag_bits_disjoint gABI.
Proof. unfold flag_bits_disjoint. cbn. repeat split; discriminate. Qed.

Lemma getFlags_read_back_witness :
  @isWritable gABI data16 = true /\ @isText gABI data16 = false
  /\ @isAllocatable gABI data16 = true.
Proof.
  destruct (@getFlags_read_back gABI false false true data16
              gABI_flag_bits_disjoint eq_refl eq_refl) as (Hw & Ht & Ha & _).
  split; [exact Hw|]. split; [exact Ht | exact Ha].
Defined.

(** ** Insertion order in the ordered stores *)

Section InsertionOrder.

Import Multiset MultisetFacts.

Lemma filter_emplace_same r (s : list Relocation) :
  ordered s ->
  filter (fun x => Offset x = Offset r) (emplace r s)
  = filter (fun x => Offset x = Offset r) s ++ [r].
Proof.
  induction s as [|x s IH]; intros Hord.
  - unfold emplace. cbn [upper_bound take drop app].
    rewrite filter_cons_True by reflexivity. reflexivity.
  - apply ordered_cons_inv in Hord as [Hord Hall]. rewrite emplace_cons.
    destruct (Offset r <? Offset x) eqn:Hlt.
    + apply Z.ltb_lt in Hlt. rewrite filter_cons_True by reflexivity.
      rewrite (filter_cons_False _ x s) by lia.
      rewrite (filter_above (Offset r) x s Hlt Hall). reflexivity.
    + rewrite !(filter_cons _ x), (IH Hord).
      destruct (decide (Offset x = Offset r)); reflexivity.
Qed.

Lemma filter_emplace_other k r (s : list Relocation) :
  k <> Offset r ->
  filter (fun x => Offset x = k) (emplace r s)
  = filter (fun x => Offset x = k) s.
Proof.
  intros Hk. unfold emplace. set (i := upper_bound (Offset r) s).
  rewrite filter_app, filter_cons_False by congruence.
  rewrite <- filter_app, take_drop. reflexivity.
Qed.

Lemma first_at_emplace k r (s : list Relocation) :
  ordered s ->
  first_at k (emplace r s)
  = if decide (k = Offset r)
    then Some (match first_at k s with Some old => old | None => r end)
    else first_at k s.
Proof.
  intros Hord. unfold first_at. destruct (decide (k = Offset r)) as [-> | Hne].
  - rewrite (filter_emplace_same r s Hord).
    destruct (filter (fun x => Offset x = Offset r) s); reflexivity.
  - rewrite (filter_emplace_other k r s Hne). reflexivity.
Qed.

Lemma emplace_not_empty r (s : list Relocation) : is_empty (emplace r s) = false.
Proof.
  unfold emplace. destruct (take (upper_bound (Offset r) s) s); reflexivity.
Qed.

Lemma remove_first_emplace_new r (s : list Relocation) :
  ordered s -> count (Offset r) s = 0%nat ->
  remove_first (Offset r) (emplace r s) = s.
Proof.
  unfold count. induction s as [|x s IH]; intros Hord Hc.
  - unfold emplace. cbn. rewrite Z.eqb_refl. reflexivity.
  - apply ordered_cons_inv in Hord as [Hord Hall]. rewrite emplace_cons.
    rewrite filter_cons in Hc.
    destruct (decide (Offset x = Offset r)) as [He | Hne]; [discriminate|].
    destruct (Offset r <? Offset x).
    + cbn [remove_first]. rewrite Z.eqb_refl. reflexivity.
    + cbn [remove_first]. replace (Offset x =? Offset r) with false
        by (symmetry; apply Z.eqb_neq; exact Hne).
      rewrite (IH Hord Hc). reflexivity.
Qed.

Lemma remove_first_emplace_old r old (s : list Relocation) :
  ordered s -> first_at (Offset r) s = Some old ->
  remove_first (Offset r) (emplace r s)
  = emplace r (remove_first (Offset r) s).
Proof.
  unfold first_at. induction s as [|x s IH]; intros Hord Hfirst.
  - discriminate.
  - apply ordered_cons_inv in Hord as [Hord Hall]. rewrite emplace_cons.
    destruct (Offset r <? Offset x) eqn:Hlt.
    + apply Z.ltb_lt in Hlt. rewrite filter_cons_False in Hfirst by lia.
      rewrite (filter_above (Offset r) x s Hlt Hall) in Hfirst. discriminate.
    + cbn [remove_first]. destruct (Offset x =? Offset r) eqn:He; [reflexivity|].
      apply Z.eqb_neq in He. rewrite filter_cons_False in Hfirst by exact He.
      rewrite emplace_cons, Hlt, (IH Hord Hfirst). reflexivity.
Qed.

(** Lookup after insertion, in the static and in the dynamic store.  A
    relocation added at an offset below the section size is found by the
    lookup at that offset when the store held no record there; when it did,
    the lookup still returns the record added first, and the new record
    comes last among those at the offset.  Lookups at other offsets return
    what they returned before. *)
Theorem lookup_after_insertion s Reloc :
  stores_ordered s ->
  Offset Reloc < getSize s ->
  exists s1 s2,
    addRelocation (Offset Reloc) (Symbol Reloc) (Type_ Reloc) (Addend Reloc)
      (Value Reloc) s = (Done tt, s1)
    /\ addDynamicRelocation Reloc s = (Done tt, s2)
    /\ getRelocationAt s1 (Offset Reloc)
       = Some (match getRelocationAt s (Offset Reloc) with
               | Some first => first
               | None => Reloc
               end)
    /\ getDynamicRelocationAt s2 (Offset Reloc)
       = Some (match getDynamicRelocationAt s (Offset Reloc) with
               | Some first => first
               | None => Reloc
               end)
    /\ (forall k, k <> Offset Reloc ->
          getRelocationAt s1 k = getRelocationAt s k
          /\ getDynamicRelocationAt s2 k = getDynamicRelocationAt s k)
    /\ filter (fun x => Offset x = Offset Reloc) (Relocations s1)
       = filter (fun x => Offset x = Offset Reloc) (Relocations s) ++ [Reloc]
    /\ filter (fun x => Offset x = Offset Reloc) (DynamicRelocations s2)
       = filter (fun x => Offset x = Offset Reloc) (DynamicRelocations s) ++ [Reloc]
    /\ hasRelocations s1 = true
    /\ getDynamicRelocationAt s1 = getDynamicRelocationAt s
    /\ getRelocationAt s2 = getRelocationAt s.
Proof.
  intros [Hs Hd] Hlt. apply Z.ltb_lt in Hlt.
  rewrite addRelocation_checked, addDynamicRelocation_checked, Hlt.
  replace (mkRelocation (Offset Reloc) (Symbol Reloc) (Type_ Reloc)
             (Addend Reloc) (Value Reloc)) with Reloc by (destruct Reloc; reflexivity).
  eexists _, _. split; [reflexivity|]. split; [reflexivity|].
  pose proof (ordered_emplace Reloc _ Hs) as Hs'.
  pose proof (ordered_emplace Reloc _ Hd) as Hd'.
  rewrite !getRelocationAt_first, !getDynamicRelocationAt_first
    by (cbn [Relocations DynamicRelocations set_Relocations set_DynamicRelocations];
        assumption).
  cbn [Relocations DynamicRelocations set_Relocations set_DynamicRelocations].
  rewrite !first_at_emplace by assumption.
  destruct (decide (Offset Reloc = Offset Reloc)); [|contradiction].
  split; [reflexivity|]. split; [reflexivity|]. split.
  { intros k Hk.
    rewrite !getRelocationAt_first, !getDynamicRelocationAt_first
      by (cbn [Relocations DynamicRelocations set_Relocations
               set_DynamicRelocations]; assumption).
    cbn [Relocations DynamicRelocations set_Relocations set_DynamicRelocations].
    rewrite !first_at_emplace by assumption.
    destruct (decide (k = Offset Reloc)); [contradiction|]. split; reflexivity. }
  split; [apply filter_emplace_same, Hs|].
  split; [apply filter_emplace_same, Hd|].
  split; [|split; reflexivity].
  unfold hasRelocations. cbn [Relocations set_Relocations].
  rewrite emplace_not_empty. reflexivity.
Qed.

(** Dynamic relocations at one offset leave in the order they came.
    Adding a relocation and taking at its offset gives it back and leaves
    the section as it was when the store held no record at that offset.
    When it held one, the take returns the record added first, the new
    record stays in the store, and the section ends as if the take had come
    before the addition. *)
Theorem takeDynamicRelocationAt_first_in_first_out s Reloc :
  Multiset.ordered (DynamicRelocations s) ->
  Offset Reloc < getSize s ->
  (getDynamicRelocationAt s (Offset Reloc) = None ->
     bind (addDynamicRelocation Reloc)
       (fun _ => takeDynamicRelocationAt (Offset Reloc)) s
     = (Done (Some Reloc), s))
  /\ (forall first,
        getDynamicRelocationAt s (Offset Reloc) = Some first ->
        exists s',
          bind (addDynamicRelocation Reloc)
            (fun _ => takeDynamicRelocationAt (Offset Reloc)) s
          = (Done (Some first), s')
          /\ bind (takeDynamicRelocationAt (Offset Reloc))
               (fun taken => bind (addDynamicRelocation Reloc) (fun _ => ret taken)) s
             = (Done (Some first), s')
          /\ getDynamicRelocationAt s' (Offset Reloc)
             = Some (match head (tail (filter (fun x => Offset x = Offset Reloc)
                                         (DynamicRelocations s))) with
                     | Some second => second
                     | None => Reloc
                     end)).
Proof.
  intros Hord Hlt. apply Z.ltb_lt in Hlt.
  pose proof (ordered_emplace Reloc _ Hord) as Hord'.
  rewrite (getDynamicRelocationAt_first s _ Hord).
  assert (Hadd : forall s0, getSize s0 = getSize s ->
            addDynamicRelocation Reloc s0
            = (Done tt, set_DynamicRelocations
                          (emplace Reloc (DynamicRelocations s0)) s0)).
  { intros s0 Hsz. rewrite addDynamicRelocation_checked, Hsz, Hlt. reflexivity. }
  split.
  - intros Hnone. unfold bind at 1. rewrite (Hadd s eq_refl).
    rewrite takeDynamicRelocationAt_eq
      by (cbn [DynamicRelocations set_DynamicRelocations]; exact Hord').
    cbn [DynamicRelocations set_DynamicRelocations].
    rewrite first_at_emplace by exact Hord.
    destruct (decide (Offset Reloc = Offset Reloc)); [|contradiction].
    rewrite Hnone. rewrite remove_first_emplace_new; [|exact Hord|].
    + f_equal. destruct s; reflexivity.
    + unfold count. unfold first_at in Hnone.
      destruct (filter (fun r => Offset r = Offset Reloc) (DynamicRelocations s));
        [reflexivity|discriminate].
  - intros first Hfirst. eexists. split; [|split].
    + unfold bind at 1. rewrite (Hadd s eq_refl).
      rewrite takeDynamicRelocationAt_eq
        by (cbn [DynamicRelocations set_DynamicRelocations]; exact Hord').
      cbn [DynamicRelocations set_DynamicRelocations].
      rewrite first_at_emplace by exact Hord.
      destruct (decide (Offset Reloc = Offset Reloc)); [|contradiction].
      rewrite Hfirst.
      rewrite (remove_first_emplace_old Reloc first _ Hord Hfirst).
      reflexivity.
    + unfold bind at 1. rewrite (takeDynamicRelocationAt_eq s _ Hord), Hfirst.
      unfold bind. rewrite Hadd by reflexivity. reflexivity.
    + rewrite getDynamicRelocationAt_first
        by (cbn [DynamicRelocations set_DynamicRelocations];
            apply ordered_emplace, ordered_remove_first, Hord).
      cbn [DynamicRelocations set_DynamicRelocations].
      rewrite first_at_emplace by apply ordered_remove_first, Hord.
      destruct (decide (Offset Reloc = Offset Reloc)); [|contradiction].
      unfold first_at. rewrite filter_remove_first_same. reflexivity.
Qed.

End InsertionOrder.

Lemma lookup_after_insertion_witness :
  exists s2,
    addDynamicRelocation reloc_b
      (state_of (addDynamicRelocation reloc_a data16)) = (Done tt, s2)
    /\ getDynamicRelocationAt s2 4 = Some reloc_a
    /\ DynamicRelocations s2 = [reloc_a; reloc_b].
Proof.
  destruct (lookup_after_insertion
              (state_of (addDynamicRelocation reloc_a data16)) reloc_b)
    as (s1 & s2 & _ & Hdyn & _ & Hget & _).
  - split; repeat constructor.
  - cbn. lia.
  - exists s2. split; [exact Hdyn|]. split; [exact Hget|].
    rewrite addDynamicRelocation_checked in Hdyn. cbn in Hdyn.
    injection Hdyn as <-. reflexivity.
Defined.

Lemma takeDynamicRelocationAt_first_in_first_out_witness :
  bind (addDynamicRelocation reloc_a) (fun _ => takeDynamicRelocationAt 4) data16
  = (Done (Some reloc_a), data16).
Proof.
  destruct (takeDynamicRelocationAt_first_in_first_out data16 reloc_a)
    as [Hnew _].
  - constructor.
  - cbn. lia.
  - apply Hnew. reflexivity.
Defined.

(** ** From relocation to layout *)

Section Scenario.

Context {elf : ELFConstants}.

(** The sequence returns for a relocation within the section, and every
    step leaves what the earlier ones recorded: at the end the static store
    holds the store from before with the relocation inserted and answers
    lookups as it did right after the insertion, the patch is the last of
    the queue, the output size is the new size plus the padding in 64-bit
    arithmetic, the layout values are the ones assigned, and the input
    geometry, the input contents and the other two stores are untouched. *)
Theorem record_patch_finalize_place_keeps
    g s Reloc PatchOffset Bytes NewData NewSize Padding OutAddress OutOffset Idx :
  stores_ordered s -> can_reread s = true -> Offset Reloc < getSize s ->
  exists g' s',
    record_patch_finalize_place Reloc PatchOffset Bytes NewData NewSize Padding
      OutAddress OutOffset Idx (g, s) = (Done tt, (g', s'))
    /\ Relocations s' = Multiset.emplace Reloc (Relocations s)
    /\ (forall k,
          getRelocationAt s' k
          = if decide (k = Offset Reloc)
            then Some (match getRelocationAt s k with
                       | Some first => first
                       | None => Reloc
                       end)
            else getRelocationAt s k)
    /\ Patches s' = Patches s ++ [mkBinaryPatch PatchOffset Bytes]
    /\ isFinalized s' = true
    /\ getOutputData s' = NewData
    /\ getOutputSize s' = Int.add64 NewSize Padding
    /\ getOutputAddress s' = OutAddress
    /\ getOutputFileOffset s' = OutOffset
    /\ getIndex s' = Idx
    /\ getAddress s' = getAddress s /\ getSize s' = getSize s
    /\ getContents s' = getContents s
    /\ DynamicRelocations s' = DynamicRelocations s
    /\ PendingRelocations s' = PendingRelocations s
    /\ Count g' = Count g.
Proof.
  intros [Hs Hd] Hre Hlt. apply Z.ltb_lt in Hlt.
  unfold record_patch_finalize_place.
  unfold bind at 1. unfold on_this at 1. cbn [fst snd].
  rewrite addRelocation_checked, Hlt.
  replace (mkRelocation (Offset Reloc) (Symbol Reloc) (Type_ Reloc)
             (Addend Reloc) (Value Reloc)) with Reloc by (destruct Reloc; reflexivity).
  unfold bind at 1. unfold on_this at 1, addPatch, modify. cbn [fst snd].
  unfold bind at 1. rewrite updateContents_run
    by (unfold can_reread in *; cbn [Section set_Patches set_Relocations];
        exact Hre).
  unfold bind, on_this, addPadding, setOutputAddress, setOutputFileOffset,
    setIndex, modify. cbn [fst snd].
  eexists _, _. split; [reflexivity|].
  split; [reflexivity|]. split.
  { intros k. rewrite (getRelocationAt_first s k Hs).
    rewrite getRelocationAt_first
      by (cbn; apply MultisetFacts.ordered_emplace, Hs).
    cbn [Relocations set_Index set_OutputFileOffset set_OutputAddress
         set_OutputSize set_IsFinalized set_OutputContents set_Patches
         set_Relocations].
    apply first_at_emplace, Hs. }
  repeat (split; [reflexivity|]).
  unfold owns_output_buffer. destruct (_ && _ && _); reflexivity.
Qed.

End Scenario.

Lemma record_patch_finalize_place_keeps_witness :
  exists g' s',
    @record_patch_finalize_place gABI (mkRelocation 4 0 1 0 0) 8
      [Byte.x01; Byte.x02; Byte.x03; Byte.x04] 8192 16 0 4096 4096 1
      (mkGlobals 3 [], data16) = (Done tt, (g', s'))
    /\ getRelocationAt s' 4 = Some (mkRelocation 4 0 1 0 0)
    /\ getOutputSize s' = 16
    /\ getOutputAddress s' = 4096.
Proof.
  destruct (@record_patch_finalize_place_keeps gABI (mkGlobals 3 []) data16
              (mkRelocation 4 0 1 0 0) 8 [Byte.x01; Byte.x02; Byte.x03; Byte.x04]
              8192 16 0 4096 4096 1)
    as (g' & s' & Hrun & _ & Hget & _ & _ & _ & Hsz & Haddr & _).
  - split; constructor.
  - reflexivity.
  - cbn. lia.
  - exists g', s'. split; [exact Hrun|]. split; [|split].
    + rewrite (Hget 4). reflexivity.
    + rewrite Hsz. reflexivity.
    + exact Haddr.
Defined.

(** ** Order among the sections of the input file *)

Section InputOrder.

Context {elf : ELFConstants}.

(** Two sections of the input file that are allocatable alike are ordered
    by address when their addresses differ.  At the same address they are
    ordered by size when the sizes differ and the address is not zero; at
    address zero the size is not consulted, and sections alike in text,
    writable and BSS are ordered by creation. *)
Theorem operator_lt_input_sections a b :
  hasSectionRef a = true -> hasSectionRef b = true ->
  isAllocatable a = isAllocatable b ->
  (getAddress a <> getAddress b ->
     operator_lt a b = (getAddress a <? getAddress b))
  /\ (getAddress a = getAddress b -> getAddress a <> 0 ->
      getSize a <> getSize b ->
      operator_lt a b = (getSize a <? getSize b))
  /\ (getAddress a = getAddress b -> getAddress a = 0 ->
      isText a = isText b -> isWritable a = isWritable b -> isBSS a = isBSS b ->
      operator_lt a b = (SectionNumber a <? SectionNumber b)).
Proof.
  intros Ha Hb Halloc. unfold operator_lt, bool_ne.
  rewrite Halloc, Ha, Hb, !xorb_nilpotent. cbn [andb].
  split; [|split].
  - intros Hne. replace (getAddress a =? getAddress b) with false
      by (symmetry; apply Z.eqb_neq; exact Hne).
    reflexivity.
  - intros He Hnz Hsz. rewrite He, Z.eqb_refl. cbn [negb].
    replace (to_bool (getAddress b)) with true
      by (symmetry; apply to_bool_true; congruence).
    replace (getSize a =? getSize b) with false
      by (symmetry; apply Z.eqb_neq; exact Hsz).
    reflexivity.
  - intros He Hz Ht Hw Hbss. rewrite He, Z.eqb_refl. cbn [negb].
    rewrite <- He, Hz. cbn [to_bool Z.eqb negb andb].
    rewrite Ht, Hw, Hbss, !xorb_nilpotent. reflexivity.
Qed.

End InputOrder.

Lemma operator_lt_input_sections_witness :
  @operator_lt gABI text16 empty_at_8192 = true
  /\ @operator_lt gABI empty_at_8192 text16 = false.
Proof.
  destruct (@operator_lt_input_sections gABI text16 empty_at_8192
              eq_refl eq_refl eq_refl) as [H1 _].
  destruct (@operator_lt_input_sections gABI empty_at_8192 text16
              eq_refl eq_refl eq_refl) as [H2 _].
  split.
  - rewrite H1; [reflexivity|discriminate].
  - rewrite H2; [reflexivity|discriminate].
Defined.
